(** * Bau-Structura: local authentication and role gating

    A shallow embedding of [server/localAuth.ts] (password hashing,
    the passport local strategy, session deserialisation, the
    register / login / forgot-password / reset-password routes) and of
    the role gates and the admin user-provisioning route of
    [server/routes.ts], with theorems about what these handlers do. *)

From Stdlib Require Import String Ascii List Bool Arith NArith Lia.
From Stdlib Require Import Strings.Byte.
Import ListNotations.

Open Scope string_scope.
Open Scope bool_scope.

(** ** JavaScript values used by the handlers *)

Module Js.

(** Exceptions the modelled code can raise. *)
Inductive JsError :=
| TypeError (msg : string)
| RangeError (msg : string)
| StorageError (msg : string).

(** Outcome of an awaited call: a value or a thrown exception. *)
Inductive result (A : Type) :=
| Ok (a : A)
| Throw (e : JsError).
Arguments Ok {A} a.
Arguments Throw {A} e.

Definition rbind {A B} (r : result A) (k : A -> result B) : result B :=
  match r with
  | Ok a => k a
  | Throw e => Throw e
  end.

Definition is_TypeError {A} (r : result A) : Prop :=
  exists m, r = Throw (TypeError m).

Definition is_RangeError {A} (r : result A) : Prop :=
  exists m, r = Throw (RangeError m).

(** [!x] for a value that is a string, [null] or [undefined]. *)
Definition falsy (x : option string) : bool :=
  match x with
  | None => true
  | Some s => (s =? "")
  end.

Definition contains_char (c : ascii) (s : string) : bool :=
  existsb (Ascii.eqb c) (list_ascii_of_string s).

(** [s.split(sep)] for a one-character separator: always at least one
    piece, an empty piece between two adjacent separators. *)
Fixpoint split (sep : ascii) (s : string) : list string :=
  match s with
  | EmptyString => [EmptyString]
  | String c r =>
      if Ascii.eqb c sep then EmptyString :: split sep r
      else match split sep r with
           | h :: t => String c h :: t
           | [] => [String c EmptyString]
           end
  end.

(** [s.toLowerCase()] on the ASCII range. *)
Definition lower_ascii (c : ascii) : ascii :=
  let n := N_of_ascii c in
  if (65 <=? n)%N && (n <=? 90)%N then ascii_of_N (n + 32) else c.

Fixpoint toLowerCase (s : string) : string :=
  match s with
  | EmptyString => EmptyString
  | String c r => String (lower_ascii c) (toLowerCase r)
  end.

(** [s.charAt(i)]: the empty string out of range. *)
Definition charAt (s : string) (i : nat) : string :=
  match String.get i s with
  | Some c => String c EmptyString
  | None => EmptyString
  end.

End Js.

(** ** Buffers and their hex encoding *)

Module Hex.

Definition Buffer := list byte.

Definition hexdigit (n : N) : ascii :=
  if (n <? 10)%N then ascii_of_N (48 + n) else ascii_of_N (87 + n).

(** One byte as two lower-case hex digits, high nibble first. *)
Definition encode_byte (b : byte) (rest : string) : string :=
  let n := Byte.to_N b in
  String (hexdigit (n / 16)) (String (hexdigit (n mod 16)) rest).

(** [buf.toString("hex")]. *)
Definition toString_hex (buf : Buffer) : string :=
  fold_right encode_byte EmptyString buf.

(** Value of a hex digit; both cases are accepted when decoding. *)
Definition hexval (c : ascii) : option N :=
  let n := N_of_ascii c in
  if (48 <=? n)%N && (n <=? 57)%N then Some (n - 48)%N
  else if (97 <=? n)%N && (n <=? 102)%N then Some (n - 87)%N
  else if (65 <=? n)%N && (n <=? 70)%N then Some (n - 55)%N
  else None.

(** [Buffer.from(s, "hex")]: decodes two digits at a time and stops,
    keeping what was decoded, at the first pair that is not hex or at
    a trailing single character. It never throws. *)
Fixpoint from_hex (s : string) : Buffer :=
  match s with
  | String a (String b rest) =>
      match hexval a, hexval b with
      | Some h, Some l =>
          match Byte.of_N (16 * h + l) with
          | Some x => x :: from_hex rest
          | None => []
          end
      | _, _ => []
      end
  | _ => []
  end.

Definition buffer_eqb (a b : Buffer) : bool :=
  if list_eq_dec Byte.byte_eq_dec a b then true else false.

(** [crypto.timingSafeEqual(a, b)]: a [RangeError] when the byte
    lengths differ, otherwise whether the contents are equal. *)
Definition timingSafeEqual (a b : Buffer) : Js.result bool :=
  if Nat.eqb (List.length a) (List.length b)
  then Js.Ok (buffer_eqb a b)
  else Js.Throw (Js.RangeError "Input buffers must have the same byte length").

End Hex.

(** ** Rows, responses and the server state *)

Module Data.

(** A row of the [users] table, with the columns the modelled
    handlers read or write. [password] is nullable. *)
Record User := mkUser {
  id : string;
  username : option string;
  email : string;
  firstName : option string;
  lastName : option string;
  password : option string;
  role : string;
  licenseType : option string;
  privacyConsent : bool;
  emailNotificationsEnabled : bool
}.

Inductive JVal :=
| JNull
| JStr (s : string)
| JBool (b : bool)
| JUser (u : User).

Definition jopt (o : option string) : JVal :=
  match o with
  | Some s => JStr s
  | None => JNull
  end.

(** The JSON object a user row is sent as. *)
Definition user_fields (u : User) : list (string * JVal) :=
  [ ("id", JStr (id u));
    ("username", jopt (username u));
    ("email", JStr (email u));
    ("firstName", jopt (firstName u));
    ("lastName", jopt (lastName u));
    ("password", jopt (password u));
    ("role", JStr (role u));
    ("licenseType", jopt (licenseType u));
    ("privacyConsent", JBool (privacyConsent u));
    ("emailNotificationsEnabled", JBool (emailNotificationsEnabled u)) ].

Inductive Body :=
| Json (fields : list (string * JVal))
| Text (s : string).

Record Response := mkResponse {
  status : nat;
  body : Body
}.

(** [res.status(code).json({ message })]. *)
Definition message_response (code : nat) (msg : string) : Response :=
  mkResponse code (Json [("message", JStr msg)]).

Definition has_field (name : string) (r : Response) : bool :=
  match body r with
  | Json fields => existsb (fun kv => String.eqb (fst kv) name) fields
  | Text _ => false
  end.

(** What a request can observe and change:
    - [users]: the rows of the users table, oldest first;
    - [db_up]: whether the database answers (every storage call of a
      request throws when it does not);
    - [session]: the [passport.user] entry of the requesting client's
      session record, the serialised user id, when there is one;
    - [cursor]: how many bytes of the entropy tape have been drawn. *)
Record World := mkWorld {
  users : list User;
  db_up : bool;
  session : option string;
  cursor : nat
}.

Definition with_users (us : list User) (w : World) : World :=
  mkWorld us (db_up w) (session w) (cursor w).

Definition with_session (s : option string) (w : World) : World :=
  mkWorld (users w) (db_up w) s (cursor w).

Definition with_cursor (c : nat) (w : World) : World :=
  mkWorld (users w) (db_up w) (session w) c.

End Data.

(** ** Awaited computations: state passing with exceptions *)

Module Async.
Import Js Data.

(** An [async] body: it runs from a world, ends in a value or a thrown
    exception, and leaves a world behind either way (what was written
    before a throw stays written). *)
Definition M (A : Type) : Type := World -> result A * World.

Definition ret {A} (a : A) : M A := fun w => (Ok a, w).

Definition throw {A} (e : JsError) : M A := fun w => (Throw e, w).

Definition bind {A B} (m : M A) (k : A -> M B) : M B :=
  fun w =>
    match m w with
    | (Ok a, w') => k a w'
    | (Throw e, w') => (Throw e, w')
    end.

(** [try { m } catch (error) { h error }]. *)
Definition try_catch {A} (m : M A) (h : JsError -> M A) : M A :=
  fun w =>
    match m w with
    | (Ok a, w') => (Ok a, w')
    | (Throw e, w') => h e w'
    end.

Definition lift {A} (r : result A) : M A := fun w => (r, w).

Definition get_world : M World := fun w => (Ok w, w).

Definition put_world (w' : World) : M unit := fun _ => (Ok tt, w').

End Async.

Declare Scope async_scope.
Delimit Scope async_scope with async.
Notation "x <- m ;; k" := (Async.bind m (fun x => k))
  (at level 61, m at next level, right associativity) : async_scope.
Notation "m ;;; k" := (Async.bind m (fun _ => k))
  (at level 61, right associativity) : async_scope.
Notation "'try' m 'catch' h" := (Async.try_catch m h)
  (at level 62, m at level 61, h at level 61) : async_scope.

(** ** The storage module *)

Module Storage.
Import Js Data Async.
Local Open Scope async_scope.

(** Modelled from the spec: the faults of the backing store, which
    reach the handlers as exceptions. *)
Definition unavailable : JsError := StorageError "database unavailable".

Definition unique_violation : JsError :=
  StorageError "duplicate key value violates unique constraint on email".

(** Modelled from the spec: [server/storage.ts] is not among the
    sources. The principals table is keyed by id, oldest row first. *)
Definition find_by_id (i : string) (us : list User) : option User :=
  find (fun u => String.eqb (id u) i) us.

(** Modelled from the spec: [server/storage.ts] is not among the
    sources. Email is a unique, case-insensitive lookup key: the
    index is on the lower-cased email. *)
Definition same_email (a b : string) : bool :=
  String.eqb (toLowerCase a) (toLowerCase b).

(** Modelled from the spec: the row the email index finds, the oldest
    one whose lower-cased email is the lower-cased key. *)
Definition find_by_email (e : string) (us : list User) : option User :=
  find (fun u => same_email (email u) e) us.

(** Modelled from the spec: [storage.getUser(id)], a lookup by id that
    fails with a storage fault when the backing store is unavailable. *)
Definition getUser (i : string) : M (option User) :=
  fun w =>
    if db_up w then (Ok (find_by_id i (users w)), w)
    else (Throw unavailable, w).

(** Modelled from the spec: [storage.getUserByEmail(email)], the
    case-insensitive lookup by email. *)
Definition getUserByEmail (e : string) : M (option User) :=
  fun w =>
    if db_up w then (Ok (find_by_email e (users w)), w)
    else (Throw unavailable, w).

(** Modelled from the spec: the table after an upsert, the row of
    [u]'s id replaced in place, or [u] added as the newest row. *)
Fixpoint replace_row (u : User) (us : list User) : list User :=
  match us with
  | [] => [u]
  | v :: rest =>
      if String.eqb (id v) (id u) then u :: rest
      else v :: replace_row u rest
  end.

(** Modelled from the spec: the unique index on the lower-cased
    email is violated when a row other than [u]'s own already holds
    [u]'s email. *)
Definition email_taken (u : User) (us : list User) : bool :=
  existsb (fun v => negb (String.eqb (id v) (id u))
                    && same_email (email v) (email u)) us.

(** Modelled from the spec: [storage.upsertUser(row)] writes the row
    under its id, inserting it or replacing the row of that id, and
    returns it; the unique index on the lower-cased email rejects a
    second row with the same email. *)
Definition upsertUser (u : User) : M User :=
  fun w =>
    if negb (db_up w) then (Throw unavailable, w)
    else if email_taken u (users w) then (Throw unique_violation, w)
    else (Ok u, with_users (replace_row u (users w)) w).

(** Modelled from the spec: a row with its password column
    rewritten. *)
Definition set_password (h : string) (u : User) : User :=
  mkUser (id u) (username u) (email u) (firstName u) (lastName u)
         (Some h) (role u) (licenseType u) (privacyConsent u)
         (emailNotificationsEnabled u).

(** Modelled from the spec: an update by id touches the rows of that
    id and no other. *)
Definition update_row (i : string) (f : User -> User) (us : list User)
  : list User :=
  map (fun u => if String.eqb (id u) i then f u else u) us.

(** Modelled from the spec: [storage.updateUser(id, { password })]
    rewrites the password column of the row with that id and returns
    the updated row ([undefined] when there is none). *)
Definition updateUser_password (i : string) (h : string)
  : M (option User) :=
  fun w =>
    if negb (db_up w) then (Throw unavailable, w)
    else
      let us := update_row i (set_password h) (users w) in
      (Ok (find_by_id i us), with_users us w).

End Storage.

(** ** [server/localAuth.ts] *)

Module LocalAuth.
Import Js Data Async Storage.
Local Open Scope async_scope.

(** What [done(...)] of a passport callback was called with. *)
Inductive Done :=
| DoneError (e : JsError)
| DoneFalse (info : option string)
| DoneUser (u : User).

(** The clock and [Math.random] readings one request makes, already
    rendered the way the handler prints them. *)
Record Draws := mkDraws {
  now_decimal : string;     (* `${Date.now()}` *)
  now_base36 : string;      (* Date.now().toString(36) *)
  random_base36 : string    (* Math.random().toString(36) *)
}.

Section Handlers.

(** [crypto.scrypt(password, salt, keylen)] with the default cost
    parameters, as a function of its arguments. *)
Variable scrypt : string -> string -> nat -> Hex.Buffer.

(** The operating system's entropy, as the tape of bytes that
    [crypto.randomBytes] hands out in order. *)
Variable entropy : nat -> byte.

(** [randomBytes(n)]: the next [n] bytes of the tape. *)
Definition randomBytes (n : nat) : M Hex.Buffer :=
  fun w => (Ok (map entropy (seq (cursor w) n)), with_cursor (cursor w + n) w).

(** [scryptAsync(password, salt, keylen)]: node rejects a salt that is
    [undefined] with a [TypeError]. *)
Definition scryptAsync (pw : string) (salt : option string) (keylen : nat)
  : result Hex.Buffer :=
  match salt with
  | Some s => Ok (scrypt pw s keylen)
  | None => Throw (TypeError "The salt argument must be of type string")
  end.

Definition hashPassword (pw : string) : M string :=
  bytes <- randomBytes 16 ;;
  let salt := Hex.toString_hex bytes in
  buf <- lift (scryptAsync pw (Some salt) 64) ;;
  ret (Hex.toString_hex buf ++ "." ++ salt).

Definition comparePasswords (supplied stored : string) : result bool :=
  let parts := split "." stored in
  let hashed := nth 0 parts "" in
  let salt := nth_error parts 1 in
  let hashedBuf := Hex.from_hex hashed in
  rbind (scryptAsync supplied salt 64) (fun suppliedBuf =>
  Hex.timingSafeEqual hashedBuf suppliedBuf).

(** The salt [hashPassword] draws at a world, and the record it builds
    from a key and a salt. *)
Definition salt_at (w : World) : Hex.Buffer := map entropy (seq (cursor w) 16).

Definition record_of (key salt : Hex.Buffer) : string :=
  Hex.toString_hex key ++ "." ++ Hex.toString_hex salt.

(** The part of a stored record in front of the first delimiter, and
    the records [comparePasswords] can compare: a delimiter is there
    and the part in front of it decodes to the 64 bytes of a key. *)
Definition key_part (stored : string) : string := nth 0 (split "." stored) "".

Definition well_formed_record (stored : string) : bool :=
  contains_char "." stored
  && Nat.eqb (List.length (Hex.from_hex (key_part stored))) 64.

Definition invalid_credentials : Done :=
  DoneFalse (Some "Invalid credentials").

(** The verify callback of the local strategy. *)
Definition verify (email pw : string) : M Done :=
  try (user <- getUserByEmail email ;;
       match user with
       | None => ret invalid_credentials
       | Some u =>
           match password u with
           | None => ret invalid_credentials
           | Some stored =>
               if stored =? "" then ret invalid_credentials
               else
                 isValid <- lift (comparePasswords pw stored) ;;
                 if negb isValid then ret invalid_credentials
                 else ret (DoneUser u)
           end
       end)
  catch (fun error => ret (DoneError error)).

(** The two ways the verify callback finds a supplied password not to
    be the account's: the row holds no password, or the comparison
    answers [false]. *)
Definition verification_fails (pw : string) (u : User) : Prop :=
  match password u with
  | None => True
  | Some stored => stored = "" \/ comparePasswords pw stored = Ok false
  end.

Definition serializeUser (u : User) : string := id u.

Definition deserializeUser (i : string) : M Done :=
  try (user <- getUser i ;;
       match user with
       | None => ret (DoneFalse None)
       | Some u => ret (DoneUser u)
       end)
  catch (fun error => ret (DoneFalse None)).

(** [req.login(user, cb)]: the serialised user goes into the session. *)
Definition req_login (u : User) : M unit :=
  fun w => (Ok tt, with_session (Some (serializeUser u)) w).

(** [req.logout(cb)]. *)
Definition req_logout : M unit :=
  fun w => (Ok tt, with_session None w).

(** [passport.session()]: [req.user] for this request. A session whose
    user does not deserialise loses its [passport.user] entry. *)
Definition passport_session : M (option User) :=
  w <- get_world ;;
  match session w with
  | None => ret None
  | Some i =>
      d <- deserializeUser i ;;
      match d with
      | DoneUser u => ret (Some u)
      | DoneFalse _ => (fun w' => (Ok None, with_session None w'))
      | DoneError e => throw e
      end
  end.

(** Whether the session middleware leaves the session as it is: it
    does when the session is empty or names a user that deserialises,
    and drops the entry otherwise. *)
Definition session_resolves (w : World) : bool :=
  match session w with
  | None => true
  | Some i => db_up w && match find_by_id i (users w) with
                        | Some _ => true
                        | None => false
                        end
  end.

(** A route as the application serves it: [app.use(passport.session())]
    is mounted before every route, so the session is resolved first
    and the route's own handler runs in the world that leaves. *)
Definition served {A} (handler : M A) : M A :=
  passport_session ;;; handler.

Definition error_page : Response :=
  mkResponse 500 (Text "Internal Server Error").

(** POST /api/auth/login, behind [passport.authenticate("local")]:
    missing credentials are a 400 before the verify callback runs, a
    [done(null, false)] is a bare 401, a [done(error)] goes to the
    error handler. *)
Definition login_route (email pw : option string) : M Response :=
  match email, pw with
  | Some e, Some p =>
      if (e =? "") || (p =? "") then ret (mkResponse 400 (Text "Bad Request"))
      else
        d <- verify e p ;;
        match d with
        | DoneError _ => ret error_page
        | DoneFalse _ => ret (mkResponse 401 (Text "Unauthorized"))
        | DoneUser u =>
            req_login u ;;;
            ret (mkResponse 200 (Json [("user", JUser u);
                                       ("message", JStr "Login successful")]))
        end
  | _, _ => ret (mkResponse 400 (Text "Bad Request"))
  end.

Definition new_local_id (d : Draws) : string :=
  "local_" ++ now_decimal d ++ "_" ++ substring 2 9 (random_base36 d).

Definition registered_user (d : Draws) (email : string)
    (firstName lastName : option string) (hashedPassword : string) : User :=
  mkUser (new_local_id d) None email firstName lastName
         (Some hashedPassword) "user" None true true.

(** The handler of POST /api/auth/register, for a body whose [email]
    and [password] are strings, as the registration form of the client
    sends them. [saved] is whether the session store takes the write
    of [req.login]: when it does not, [req.login] hands its callback
    an error, the row has been written already and the session keeps
    what it held. *)
Definition register_route (saved : bool) (d : Draws) (email pw : string)
    (firstName lastName : option string) : M Response :=
  try (existingUser <- getUserByEmail email ;;
       match existingUser with
       | Some _ => ret (message_response 400 "User already exists")
       | None =>
           hashedPassword <- hashPassword pw ;;
           user <- upsertUser
                     (registered_user d email firstName lastName hashedPassword) ;;
           if saved then
             req_login user ;;;
             ret (mkResponse 201 (Json [("user", JUser user);
                                        ("message", JStr "Registration successful")]))
           else
             ret (message_response 500 "Login failed after registration")
       end)
  catch (fun error => ret (message_response 500 "Registration failed")).

(** The handler of POST /api/auth/logout. [saved] is whether the
    session store takes the write of [req.logout]: when it does not,
    [req.logout] hands its callback an error and the stored session
    keeps its user. *)
Definition logout_route (saved : bool) : M Response :=
  if saved then
    req_logout ;;;
    ret (message_response 200 "Logout successful")
  else
    ret (message_response 500 "Logout failed").

(** GET /api/auth/user, after [passport.session()]. *)
Definition auth_user_route : M Response :=
  req_user <- passport_session ;;
  match req_user with
  | Some u => ret (mkResponse 200 (Json (user_fields u)))
  | None => ret (message_response 401 "Not authenticated")
  end.

Definition reset_link_sent : string :=
  "Falls die E-Mail-Adresse registriert ist, wurde ein Reset-Link gesendet.".

Definition new_reset_token (d : Draws) : string :=
  substring 2 15 (random_base36 d) ++ now_base36 d.

(** The handler of POST /api/auth/forgot-password. The token is
    logged and returned, and stored nowhere. The request as the
    application serves it is [served] of this handler: the session is
    resolved before the handler runs. *)
Definition forgot_password_route (d : Draws) (email : option string)
  : M Response :=
  try (match email with
       | None => ret (message_response 400 "E-Mail-Adresse ist erforderlich")
       | Some e =>
           if e =? "" then
             ret (message_response 400 "E-Mail-Adresse ist erforderlich")
           else
             user <- getUserByEmail e ;;
             match user with
             | None => ret (message_response 200 reset_link_sent)
             | Some _ =>
                 let resetToken := new_reset_token d in
                 ret (mkResponse 200 (Json [("message", JStr reset_link_sent);
                                            ("resetToken", JStr resetToken)]))
             end
       end)
  catch (fun error => ret (message_response 500 "Passwort-Reset fehlgeschlagen")).

Definition invalid_reset_link : Response :=
  message_response 400 "Ungültiger Reset-Link".

Definition reset_done : Response :=
  message_response 200 "Passwort erfolgreich zurückgesetzt".

(** The handler of POST /api/auth/reset-password. The token only has
    to be present: it is compared with nothing. The request as the
    application serves it is [served] of this handler: the session is
    resolved before the handler runs. *)
Definition reset_password_route (email newPassword resetToken : option string)
  : M Response :=
  try (match email, newPassword with
       | Some e, Some p =>
           if (e =? "") || (p =? "") || falsy resetToken then
             ret (message_response 400 "Alle Felder sind erforderlich")
           else
             user <- getUserByEmail e ;;
             match user with
             | None => ret invalid_reset_link
             | Some u =>
                 hashedPassword <- hashPassword p ;;
                 updateUser_password (id u) hashedPassword ;;;
                 ret reset_done
             end
       | _, _ => ret (message_response 400 "Alle Felder sind erforderlich")
       end)
  catch (fun error => ret (message_response 500 "Passwort-Reset fehlgeschlagen")).

(** What a middleware does with the request. *)
Inductive Gate :=
| Next
| Reply (r : Response).

(** The exported [isAuthenticated] middleware. *)
Definition isAuthenticated (req_user : option User) : Gate :=
  match req_user with
  | Some _ => Next
  | None => Reply (message_response 401 "Unauthorized")
  end.

End Handlers.
End LocalAuth.

(** ** [server/routes.ts]: role gates and user provisioning *)

Module Routes.
Import Js Data Async Storage LocalAuth.
Local Open Scope async_scope.

Definition forbidden (msg : string) : Response := message_response 403 msg.

(** The [isAdmin] middleware of the admin routes. *)
Definition isAdmin (req_user : option User) : M Gate :=
  match req_user with
  | None => ret (Reply (message_response 401 "Unauthorized"))
  | Some ru =>
      if id ru =? "" then ret (Reply (message_response 401 "Unauthorized"))
      else
        try (user <- getUser (id ru) ;;
             match user with
             | None => ret (Reply (forbidden "Admin access required"))
             | Some u =>
                 if negb (role u =? "admin")
                 then ret (Reply (forbidden "Admin access required"))
                 else ret Next
             end)
        catch (fun error => ret (Reply (message_response 500 "Internal server error")))
  end.

Definition error_message (e : JsError) : string :=
  match e with
  | TypeError m => m
  | RangeError m => m
  | StorageError m => m
  end.

(** [{ message, error: error.message }] with status 500. *)
Definition failure_response (msg : string) (e : JsError) : Response :=
  mkResponse 500 (Json [("message", JStr msg); ("error", JStr (error_message e))]).

(** The role check that opens every manager-level route:
    [user?.role === "user"] is a 403 with the route's message;
    [failed] is what the route's own [catch] sends. *)
Definition deny_role_user (denied : string) (failed : JsError -> Response)
    (ru : User) : M Gate :=
  try (user <- getUser (id ru) ;;
       match user with
       | Some u =>
           if role u =? "user" then ret (Reply (forbidden denied))
           else ret Next
       | None => ret Next
       end)
  catch (fun error => ret (Reply (failed error))).

(** GET /api/sftp/files. *)
Definition sftp_files_role_check : User -> M Gate :=
  deny_role_user "SFTP access requires manager or admin role"
                 (failure_response "Failed to list SFTP files").

(** POST /api/projects. *)
Definition project_create_role_check : User -> M Gate :=
  deny_role_user "Insufficient permissions"
                 (fun _ => message_response 500 "Failed to create project").

(** The inline admin check: [user?.role !== "admin"] is a 403. *)
Definition require_role_admin (denied : string) (failed : JsError -> Response)
    (ru : User) : M Gate :=
  try (user <- getUser (id ru) ;;
       match user with
       | Some u =>
           if negb (role u =? "admin") then ret (Reply (forbidden denied))
           else ret Next
       | None => ret (Reply (forbidden denied))
       end)
  catch (fun error => ret (Reply (failed error))).

(** DELETE /api/projects/:id. *)
Definition project_delete_role_check : User -> M Gate :=
  require_role_admin "Insufficient permissions"
                     (fun _ => message_response 500 "Failed to delete project").

(** The role order [user < manager < admin]. *)
Definition role_rank (r : string) : option nat :=
  if r =? "user" then Some 0
  else if r =? "manager" then Some 1
  else if r =? "admin" then Some 2
  else None.

Definition ranks_at_least (minRole r : string) : bool :=
  match role_rank minRole, role_rank r with
  | Some m, Some n => Nat.leb m n
  | _, _ => false
  end.

Definition is_forbidden (g : Gate) : bool :=
  match g with
  | Next => false
  | Reply r => Nat.eqb (status r) 403
  end.

Definition charset : string :=
  "abcdefghijklmnopqrstuvwxyzABCDEFGHIJKLMNOPQRSTUVWXYZ0123456789!@#$%&*".

(** [generateSecurePassword()]. [pick i] stands for the [i]-th reading
    of [Math.random()]; as that lies in [0, 1), the index
    [Math.floor(Math.random() * charset.length)] is below the length. *)
Definition generateSecurePassword (pick : nat -> nat) : string :=
  fold_left
    (fun pw i => pw ++ charAt charset (pick i mod String.length charset))
    (seq 0 12) "".

Definition or_default (x : option string) (d : string) : string :=
  if falsy x then d else match x with Some s => s | None => d end.

Definition provisioned_user (username email : string)
    (role licenseType : option string) (temporaryPassword : string) : User :=
  mkUser username (Some username) email (Some username) (Some "")
         (Some temporaryPassword) (or_default role "user")
         (Some (or_default licenseType "basic")) false true.

Definition without_password (u : User) : list (string * JVal) :=
  filter (fun kv => negb (fst kv =? "password")) (user_fields u).

(** POST /api/admin/users, after [isAuthenticated] and [isAdmin]. The
    welcome mail goes to the mail service, whose failure is caught and
    logged; it reads and writes nothing of the world. *)
Definition admin_create_user (pick : nat -> nat)
    (username email role licenseType : option string) : M Response :=
  try (match username, email with
       | Some name, Some e =>
           if (name =? "") || (e =? "") then
             ret (message_response 400 "Username and email are required")
           else
             existingUser <- getUser name ;;
             match existingUser with
             | Some _ => ret (message_response 409 "Username bereits vergeben")
             | None =>
                 let temporaryPassword := generateSecurePassword pick in
                 newUser <- upsertUser
                              (provisioned_user name e role licenseType
                                                temporaryPassword) ;;
                 ret (mkResponse 201
                        (Json (without_password newUser ++
                               [("passwordSent", JBool true);
                                ("message",
                                 JStr "Benutzer erstellt und Passwort per E-Mail versendet")])))
             end
       | _, _ => ret (message_response 400 "Username and email are required")
       end)
  catch (fun error => ret (message_response 500 "Failed to create user")).

End Routes.

(** ** Sample instances *)

Module Sample.
Import Js Data Async Storage LocalAuth.

Fixpoint checksum (s : string) : N :=
  match s with
  | EmptyString => 0
  | String c r => (N_of_ascii c + 3 * checksum r) mod 256
  end%N.

Definition byte_of_N (n : N) : byte :=
  match Byte.of_N (n mod 256) with
  | Some b => b
  | None => x00
  end.

(** A stand-in key derivation of the right shape: [keylen] bytes that
    depend on the password and on the salt. *)
Definition kdf (pw salt : string) (keylen : nat) : Hex.Buffer :=
  map (fun i => byte_of_N (checksum pw + 5 * checksum salt + N.of_nat i))
      (seq 0 keylen).

Definition tape (i : nat) : byte := byte_of_N (7 * N.of_nat i + 1).

Definition draws : Draws := mkDraws "1751500000000" "mcmt8qo0" "0.4fzyo82mvyr".

Definition empty_world : World := mkWorld [] true None 0.

(** The record [hashPassword] returns for a password in a world. *)
Definition hash_of (pw : string) (w : World) : string :=
  match hashPassword kdf tape pw w with
  | (Ok h, _) => h
  | (Throw _, _) => ""
  end.

Definition alice : User :=
  mkUser "local_1_alice" None "alice@example.com" (Some "Alice") (Some "A")
         (Some (hash_of "correcthorse123" empty_world)) "user" None true true.

Definition mallory : User :=
  mkUser "mallory" (Some "mallory") "mallory@example.com" (Some "mallory")
         (Some "") (Some (hash_of "manager-pw" empty_world)) "manager"
         (Some "basic") false true.

Definition root : User :=
  mkUser "root" (Some "root") "root@example.com" (Some "root") (Some "")
         (Some (hash_of "admin-pw" empty_world)) "admin" (Some "basic") false true.

Definition world1 : World := mkWorld [alice; mallory; root] true None 16.

Definition pick (i : nat) : nat := 11 * i + 3.

End Sample.

(** ** [server/routes.ts]: the other account routes *)

Module Accounts.
Import Js Data Async Storage LocalAuth Routes.
Local Open Scope async_scope.

(** A handler run that ended in a response, not in an exception that
    escaped it. *)
Definition answers {A} (run : result A * World) : Prop :=
  match fst run with
  | Ok _ => True
  | Throw _ => False
  end.

(** A route registered as [app.verb(path, isAuthenticated, handler)],
    after [passport.session()]: the handler runs with [req.user]. *)
Definition behind_isAuthenticated (handler : User -> M Response) : M Response :=
  req_user <- passport_session ;;
  match isAuthenticated req_user, req_user with
  | Next, Some u => handler u
  | Reply r, _ => ret r
  | Next, None => ret error_page
  end.

(** Modelled from the spec: [storage.deleteUser(id)] of
    [server/storage.ts], which is not among the sources; afterwards
    the principal of that id no longer exists. *)
Definition deleteUser (i : string) : M unit :=
  fun w =>
    if negb (db_up w) then (Throw unavailable, w)
    else (Ok tt, with_users (filter (fun u => negb (id u =? i)) (users w)) w).

(** DELETE /api/admin/users/:id, after [isAuthenticated] and
    [isAdmin]. *)
Definition admin_delete_user (req_user : User) (i : string) : M Response :=
  try (if i =? id req_user then
         ret (message_response 400 "Cannot delete your own account")
       else
         deleteUser i ;;;
         ret (message_response 200 "User deleted successfully"))
  catch (fun error => ret (message_response 500 "Failed to delete user")).

(** [Object.keys(updateData).filter(key => allowedFields.includes(key))
    .reduce(...)]: the entries of the body whose key is allowed, in
    the body's order. *)
Definition pick_allowed (allowedFields : list string)
    (updateData : list (string * JVal)) : list (string * JVal) :=
  filter (fun kv => existsb (String.eqb (fst kv)) allowedFields) updateData.

Definition profile_allowedFields : list string :=
  [ "firstName"; "lastName"; "privacyConsent"; "sftpHost";
    "sftpPort"; "sftpUsername"; "sftpPassword"; "sftpPath";
    "emailNotificationsEnabled" ].

Definition admin_allowedFields : list string :=
  [ "firstName"; "lastName"; "email"; "role"; "emailNotificationsEnabled" ].

Section Updates.

(** [storage.updateUser(id, data)] for an arbitrary set of columns;
    [server/storage.ts] is not among the sources, so the routes are
    modelled over any such function. It returns the updated row, or
    [undefined]. *)
Variable updateUser : string -> list (string * JVal) -> M (option User).

(** PATCH /api/profile, after [isAuthenticated]. Reading
    [updatedUser.firstName] of [undefined] throws into the route's
    [catch]. *)
Definition profile_update (req_user : User) (updateData : list (string * JVal))
  : M Response :=
  try (let filteredData := pick_allowed profile_allowedFields updateData in
       if Nat.eqb (List.length filteredData) 0 then
         ret (message_response 400 "No valid fields to update")
       else
         updatedUser <- updateUser (id req_user) filteredData ;;
         match updatedUser with
         | Some u => ret (mkResponse 200 (Json (user_fields u)))
         | None =>
             throw (TypeError "Cannot read properties of undefined")
         end)
  catch (fun error => ret (failure_response "Failed to update profile" error)).

(** PATCH /api/admin/users/:id, after [isAuthenticated] and [isAdmin]. *)
Definition admin_update_user (i : string) (updateData : list (string * JVal))
  : M Response :=
  try (let filteredData := pick_allowed admin_allowedFields updateData in
       user <- updateUser i filteredData ;;
       match user with
       | Some u => ret (mkResponse 200 (Json (user_fields u)))
       | None => ret (mkResponse 200 (Text ""))
       end)
  catch (fun error => ret (message_response 500 "Failed to update user")).

End Updates.

(** [{ success: true, message: `Neues Passwort an ${user.email}
    gesendet` }]. *)
Definition password_sent (u : User) : Response :=
  mkResponse 200
    (Json [("success", JBool true);
           ("message", JStr ("Neues Passwort an " ++ email u ++ " gesendet"))]).

Section PasswordReset.

Variable scrypt : string -> string -> nat -> Hex.Buffer.
Variable entropy : nat -> byte.

(** POST /api/admin/users/:id/reset-password, after [isAuthenticated]
    and [isAdmin]. [delivered] is whether
    [emailService.sendWelcomeEmail] gets the mail out; it rethrows the
    transport's error when it does not. *)
Definition admin_reset_password (pick : nat -> nat) (delivered : bool)
    (i : string) : M Response :=
  try (byId <- getUser i ;;
       user <- match byId with
               | Some u => ret (Some u)
               | None => getUserByEmail i
               end ;;
       match user with
       | None => ret (message_response 404 "Benutzer nicht gefunden")
       | Some u =>
           let newPassword := generateSecurePassword pick in
           hashedPassword <- hashPassword scrypt entropy newPassword ;;
           updateUser_password (id u) hashedPassword ;;;
           if delivered then ret (password_sent u)
           else ret (message_response 500 "E-Mail-Versand fehlgeschlagen")
       end)
  catch (fun error =>
           ret (message_response 500 "Passwort konnte nicht zurückgesetzt werden")).

End PasswordReset.

(** A stand-in for the storage update that changes nothing and
    returns the row of the id. *)
Definition read_only_update (i : string) (data : list (string * JVal))
  : M (option User) := getUser i.

End Accounts.

(** * Theorems *)

(** ** Hex encoding and [split] *)

Section HexFacts.
Import Js Hex.

Lemma from_hex_encode_byte (b : byte) (rest : string) :
  from_hex (encode_byte b rest) = b :: from_hex rest.
Proof. destruct b; reflexivity. Qed.

(** Decoding the hex text of a buffer gives the buffer back. *)
Lemma from_hex_toString_hex (buf : Buffer) :
  from_hex (toString_hex buf) = buf.
Proof.
  induction buf as [|b buf IH]; [reflexivity|].
  cbn [toString_hex fold_right]. rewrite from_hex_encode_byte.
  f_equal. exact IH.
Qed.

Lemma encode_byte_no_dot (b : byte) (rest : string) :
  contains_char "." (encode_byte b rest) = contains_char "." rest.
Proof. destruct b; reflexivity. Qed.

(** The delimiter is not a hex digit. *)
Lemma toString_hex_no_dot (buf : Buffer) :
  contains_char "." (toString_hex buf) = false.
Proof.
  induction buf as [|b buf IH]; [reflexivity|].
  cbn [toString_hex fold_right]. rewrite encode_byte_no_dot. exact IH.
Qed.

Lemma toString_hex_length (buf : Buffer) :
  String.length (toString_hex buf) = 2 * List.length buf.
Proof.
  induction buf as [|b buf IH]; [reflexivity|].
  cbn [toString_hex fold_right encode_byte String.length List.length].
  fold (toString_hex buf). rewrite IH. lia.
Qed.

Lemma contains_char_cons (c a : ascii) (s : string) :
  contains_char c (String a s) = Ascii.eqb c a || contains_char c s.
Proof. reflexivity. Qed.

Lemma split_no_sep (sep : ascii) (s : string) :
  contains_char sep s = false -> split sep s = [s].
Proof.
  induction s as [|c r IH]; intros H; [reflexivity|].
  rewrite contains_char_cons in H. apply orb_false_iff in H as [Hc Hr].
  cbn [split]. rewrite Ascii.eqb_sym, Hc, (IH Hr). reflexivity.
Qed.

Lemma split_app_sep (sep : ascii) (a b : string) :
  contains_char sep a = false ->
  split sep (a ++ String sep b) = a :: split sep b.
Proof.
  induction a as [|c r IH]; intros H.
  - cbn [append split]. rewrite Ascii.eqb_refl. reflexivity.
  - rewrite contains_char_cons in H. apply orb_false_iff in H as [Hc Hr].
    cbn [append split]. rewrite Ascii.eqb_sym, Hc, (IH Hr). reflexivity.
Qed.

Lemma split_has_sep (sep : ascii) (s : string) :
  contains_char sep s = true ->
  exists a b rest, split sep s = a :: b :: rest.
Proof.
  induction s as [|c r IH]; intros H; [discriminate|].
  rewrite contains_char_cons in H. cbn [split].
  destruct (Ascii.eqb sep c) eqn:Hc.
  - rewrite Ascii.eqb_sym, Hc.
    destruct r as [|c' r']; cbn [split].
    + eexists _, _, _. reflexivity.
    + destruct (Ascii.eqb c' sep); [eexists _, _, _; reflexivity|].
      destruct (split sep r'); eexists _, _, _; reflexivity.
  - rewrite Ascii.eqb_sym, Hc. cbn in H.
    destruct (IH H) as (a & b & rest & E). rewrite E.
    eexists _, _, _. reflexivity.
Qed.

Lemma buffer_eqb_refl (a : Buffer) : buffer_eqb a a = true.
Proof. unfold buffer_eqb. destruct (list_eq_dec _ a a); congruence. Qed.

Lemma buffer_eqb_eq (a b : Buffer) : buffer_eqb a b = true <-> a = b.
Proof.
  unfold buffer_eqb. destruct (list_eq_dec _ a b); split; congruence.
Qed.

End HexFacts.

(** ** The credential hasher *)

Section CredentialHasher.
Import Js Hex Data Async LocalAuth.

Variable scrypt : string -> string -> nat -> Buffer.
Variable entropy : nat -> byte.

Local Abbreviation hashPassword := (LocalAuth.hashPassword scrypt entropy).
Local Abbreviation comparePasswords := (LocalAuth.comparePasswords scrypt).
Local Abbreviation salt_at := (LocalAuth.salt_at entropy).

Lemma hashPassword_eq (pw : string) (w : World) :
  hashPassword pw w =
  (Ok (record_of (scrypt pw (toString_hex (salt_at w)) 64) (salt_at w)),
   with_cursor (cursor w + 16) w).
Proof. reflexivity. Qed.

Lemma split_record (key salt : Buffer) :
  split "." (record_of key salt) = [toString_hex key; toString_hex salt].
Proof.
  unfold record_of. cbn [append].
  rewrite split_app_sep by apply toString_hex_no_dot.
  rewrite split_no_sep by apply toString_hex_no_dot. reflexivity.
Qed.

Lemma comparePasswords_record (supplied : string) (key salt : Buffer) :
  comparePasswords supplied (record_of key salt) =
  timingSafeEqual key (scrypt supplied (toString_hex salt) 64).
Proof.
  unfold LocalAuth.comparePasswords. rewrite split_record.
  cbn [nth nth_error scryptAsync rbind]. rewrite from_hex_toString_hex.
  reflexivity.
Qed.

(** C5. Hashing round-trips with verification: for every password and
    every state of the entropy source, [hashPassword] returns a record
    and [comparePasswords] of the same password against that record
    returns [true]. *)
Theorem verify_hash_roundtrip (pw : string) (w : World) :
  exists h w',
    hashPassword pw w = (Ok h, w') /\ comparePasswords pw h = Ok true.
Proof.
  eexists _, _. split; [apply hashPassword_eq|].
  rewrite comparePasswords_record. unfold timingSafeEqual.
  rewrite Nat.eqb_refl, buffer_eqb_refl. reflexivity.
Qed.

(** Without a delimiter the salt is [undefined] and the key derivation
    throws. *)
Lemma comparePasswords_no_delimiter (supplied stored : string) :
  contains_char "." stored = false ->
  is_TypeError (comparePasswords supplied stored).
Proof.
  intros H. unfold LocalAuth.comparePasswords.
  rewrite (split_no_sep _ _ H). cbn. eexists. reflexivity.
Qed.

Hypothesis scrypt_length : forall pw salt n, List.length (scrypt pw salt n) = n.

(** With a delimiter, a key part that does not decode to 64 bytes makes
    the comparison throw. *)
Lemma comparePasswords_bad_length (supplied stored : string) :
  contains_char "." stored = true ->
  List.length (from_hex (key_part stored)) <> 64 ->
  is_RangeError (comparePasswords supplied stored).
Proof.
  intros H Hl. unfold LocalAuth.comparePasswords, key_part in *.
  destruct (split_has_sep _ _ H) as (a & b & rest & E). rewrite E in *.
  cbn [nth nth_error scryptAsync rbind] in *. unfold timingSafeEqual.
  rewrite scrypt_length. apply Nat.eqb_neq in Hl. rewrite Hl.
  eexists. reflexivity.
Qed.

(** C9. For every password, [hashPassword] draws a salt of 16 bytes
    from the entropy source, derives a key of 64 bytes from the
    password and the salt's hex text, and returns the key's hex, the
    delimiter and the salt's hex as one string; the delimiter occurs in
    neither hex component, so the record splits back into exactly the
    two. *)
Theorem hashPassword_shape (pw : string) (w : World) :
  exists (salt key : Buffer) (h : string),
    hashPassword pw w = (Ok h, with_cursor (cursor w + 16) w)
    /\ salt = map entropy (seq (cursor w) 16)
    /\ List.length salt = 16 /\ 16 <= List.length salt
    /\ key = scrypt pw (toString_hex salt) 64
    /\ List.length key = 64 /\ 64 <= List.length key
    /\ h = toString_hex key ++ "." ++ toString_hex salt
    /\ contains_char "." (toString_hex key) = false
    /\ contains_char "." (toString_hex salt) = false
    /\ String.length (toString_hex key) = 128
    /\ String.length (toString_hex salt) = 32
    /\ split "." h = [toString_hex key; toString_hex salt].
Proof.
  exists (salt_at w), (scrypt pw (toString_hex (salt_at w)) 64).
  exists (record_of (scrypt pw (toString_hex (salt_at w)) 64) (salt_at w)).
  assert (Hs : List.length (salt_at w) = 16).
  { unfold LocalAuth.salt_at. rewrite length_map, length_seq. reflexivity. }
  split; [apply hashPassword_eq|].
  repeat split;
    try apply toString_hex_no_dot; try apply split_record;
    rewrite ?toString_hex_length, ?scrypt_length, ?Hs;
    solve [reflexivity | apply Nat.le_refl].
Qed.

(** C4, as the code has it. [comparePasswords] returns a boolean, and
    does not throw, exactly on the well-formed records: a stored string
    without the delimiter makes the key derivation throw a [TypeError]
    (the salt is [undefined]), and one whose part in front of the
    delimiter does not decode to 64 bytes makes [timingSafeEqual] throw
    a [RangeError]; on a well-formed record the answer is whether the
    decoded bytes are the key derived from the supplied password. *)
Theorem comparePasswords_outcome (supplied stored : string) :
  (contains_char "." stored = false ->
     is_TypeError (comparePasswords supplied stored))
  /\ (contains_char "." stored = true ->
      List.length (from_hex (key_part stored)) <> 64 ->
      is_RangeError (comparePasswords supplied stored))
  /\ (well_formed_record stored = true ->
      exists salt,
        nth_error (split "." stored) 1 = Some salt
        /\ comparePasswords supplied stored =
           Ok (buffer_eqb (from_hex (key_part stored)) (scrypt supplied salt 64)))
  /\ (well_formed_record stored = false ->
      exists e, comparePasswords supplied stored = Throw e).
Proof.
  pose proof (comparePasswords_no_delimiter supplied stored) as Hno.
  pose proof (comparePasswords_bad_length supplied stored) as Hbad.
  split; [exact Hno|]. split; [exact Hbad|]. split.
  - intros H. apply andb_true_iff in H as [Hd Hl].
    apply Nat.eqb_eq in Hl. unfold LocalAuth.comparePasswords, key_part in *.
    destruct (split_has_sep _ _ Hd) as (a & b & rest & E). rewrite E in *.
    cbn [nth nth_error scryptAsync rbind] in *. exists b. split; [reflexivity|].
    unfold timingSafeEqual. rewrite scrypt_length, Hl. reflexivity.
  - intros H. apply andb_false_iff in H as [Hd|Hl].
    + destruct (Hno Hd) as [m E]. eexists. exact E.
    + destruct (contains_char "." stored) eqn:Hd.
      * apply Nat.eqb_neq in Hl. destruct (Hbad eq_refl Hl) as [m E].
        eexists. exact E.
      * destruct (Hno eq_refl) as [m E]. eexists. exact E.
Qed.

End CredentialHasher.

(** ** The users table *)

Section StorageFacts.
Import Js Data Storage.

Lemma same_email_true (a b : string) :
  same_email a b = true <-> toLowerCase a = toLowerCase b.
Proof. apply String.eqb_eq. Qed.

Lemma find_by_email_none (e : string) (us : list User) :
  find_by_email e us = None <->
  (forall v, In v us -> toLowerCase (email v) <> toLowerCase e).
Proof.
  split.
  - intros H v Hv E. apply same_email_true in E.
    pose proof (find_none _ _ H v Hv) as F. cbv beta in F. congruence.
  - intros H. induction us as [|v us IH]; [reflexivity|].
    cbn [find_by_email find].
    destruct (same_email (email v) e) eqn:E.
    + apply same_email_true in E. exfalso. exact (H v (or_introl eq_refl) E).
    + apply IH. intros v' Hv'. apply H. right. exact Hv'.
Qed.

Lemma find_by_email_some (e : string) (us : list User) :
  (exists v, In v us /\ toLowerCase (email v) = toLowerCase e) ->
  exists u, find_by_email e us = Some u.
Proof.
  intros (v & Hv & E). destruct (find_by_email e us) as [u|] eqn:F.
  - exists u. reflexivity.
  - exfalso. exact (proj1 (find_by_email_none e us) F v Hv E).
Qed.

Lemma find_by_email_found (e : string) (us : list User) (u : User) :
  find_by_email e us = Some u ->
  In u us /\ toLowerCase (email u) = toLowerCase e.
Proof.
  intros H. apply find_some in H as [Hin E]. split; [exact Hin|].
  apply same_email_true. exact E.
Qed.

Lemma find_by_id_found (i : string) (us : list User) (u : User) :
  find_by_id i us = Some u -> In u us /\ id u = i.
Proof.
  intros H. apply find_some in H as [Hin E]. split; [exact Hin|].
  apply String.eqb_eq. exact E.
Qed.

Lemma find_by_id_replace_row (u : User) (us : list User) :
  find_by_id (id u) (replace_row u us) = Some u.
Proof.
  induction us as [|v us IH]; cbn [replace_row find_by_id find].
  - rewrite String.eqb_refl. reflexivity.
  - destruct (id v =? id u) eqn:E; cbn [find].
    + rewrite String.eqb_refl. reflexivity.
    + rewrite E. exact IH.
Qed.

Lemma replace_row_fresh (u : User) (us : list User) :
  find_by_id (id u) us = None -> replace_row u us = (us ++ [u])%list.
Proof.
  induction us as [|v us IH]; intros H; [reflexivity|].
  cbn [find_by_id find] in H. cbn [replace_row app].
  destruct (id v =? id u); [discriminate|]. rewrite (IH H). reflexivity.
Qed.

Lemma email_taken_none (u : User) (us : list User) :
  find_by_email (email u) us = None -> email_taken u us = false.
Proof.
  intros H. unfold email_taken.
  induction us as [|v us IH]; [reflexivity|].
  cbn [find_by_email find] in H. cbn [existsb].
  destruct (same_email (email v) (email u)); [discriminate|].
  rewrite andb_false_r. exact (IH H).
Qed.

Lemma find_by_email_update_row (e i h : string) (us : list User) (u : User) :
  find_by_email e us = Some u ->
  find_by_email e (update_row i (set_password h) us) =
  Some (if id u =? i then set_password h u else u).
Proof.
  induction us as [|v us IH]; intros H; [discriminate|].
  cbn [find_by_email find] in H. cbn [update_row map find_by_email find].
  assert (Em : email (if id v =? i then set_password h v else v) = email v)
    by (destruct (id v =? i); reflexivity).
  rewrite Em. destruct (same_email (email v) e).
  - injection H as <-. reflexivity.
  - apply IH. exact H.
Qed.

End StorageFacts.

(** ** Login, sessions, registration and password reset *)

Section Authenticator.
Import Js Hex Data Async Storage LocalAuth.

Variable scrypt : string -> string -> nat -> Buffer.
Variable entropy : nat -> byte.

Local Abbreviation hashPassword := (LocalAuth.hashPassword scrypt entropy).
Local Abbreviation comparePasswords := (LocalAuth.comparePasswords scrypt).
Local Abbreviation salt_at := (LocalAuth.salt_at entropy).
Local Abbreviation verify := (LocalAuth.verify scrypt).
Local Abbreviation verification_fails := (LocalAuth.verification_fails scrypt).
Local Abbreviation login_route := (LocalAuth.login_route scrypt).
Local Abbreviation register_route := (LocalAuth.register_route scrypt entropy).
Local Abbreviation reset_password_route :=
  (LocalAuth.reset_password_route scrypt entropy).

(** The record [hashPassword] stores for a password at a world. *)
Local Abbreviation fresh_hash pw w :=
  (record_of (scrypt pw (toString_hex (salt_at w)) 64) (salt_at w)).

Ltac run_storage Hup :=
  unfold getUserByEmail, getUser, upsertUser, updateUser_password;
  cbn [db_up users with_users with_cursor with_session];
  rewrite ?Hup; cbn [negb].

Lemma verify_absent (w : World) (e pw : string) :
  db_up w = true -> find_by_email e (users w) = None ->
  verify e pw w = (Ok invalid_credentials, w).
Proof.
  intros Hup Hnone. unfold LocalAuth.verify, try_catch, bind.
  run_storage Hup. rewrite Hnone. reflexivity.
Qed.

Lemma verify_rejected (w : World) (e pw : string) (u : User) :
  db_up w = true -> find_by_email e (users w) = Some u ->
  verification_fails pw u ->
  verify e pw w = (Ok invalid_credentials, w).
Proof.
  intros Hup Hu Hfail. unfold LocalAuth.verify, try_catch, bind.
  run_storage Hup. rewrite Hu. unfold LocalAuth.verification_fails in Hfail.
  destruct (password u) as [stored|]; [|reflexivity].
  destruct (stored =? "") eqn:E; [reflexivity|].
  destruct Hfail as [H|H].
  - apply String.eqb_neq in E. contradiction.
  - unfold lift. rewrite H. reflexivity.
Qed.

(** An account whose stored password has no delimiter: the comparison
    throws and the verify callback reports the exception. *)
Lemma verify_malformed_record (w : World) (e pw stored : string) (u : User) :
  db_up w = true -> find_by_email e (users w) = Some u ->
  password u = Some stored -> stored <> "" ->
  contains_char "." stored = false ->
  exists m, verify e pw w = (Ok (DoneError (TypeError m)), w).
Proof.
  intros Hup Hu Hpw Hne Hdot. apply String.eqb_neq in Hne.
  destruct (comparePasswords_no_delimiter scrypt pw stored Hdot) as [m Hm].
  exists m. unfold LocalAuth.verify, try_catch, bind.
  run_storage Hup. rewrite Hu, Hpw, Hne. unfold lift. rewrite Hm.
  reflexivity.
Qed.

Lemma deserializeUser_total (i : string) (w : World) :
  deserializeUser i w =
  (Ok (if db_up w
       then match find_by_id i (users w) with
            | Some u => DoneUser u
            | None => DoneFalse None
            end
       else DoneFalse None), w).
Proof.
  unfold deserializeUser, try_catch, bind, getUser.
  destruct (db_up w); [|reflexivity].
  destruct (find_by_id i (users w)); reflexivity.
Qed.

(** C8. Resolving the session of a request never throws, and it fails
    closed: when the session names a user id that has no row, or the
    lookup of that id fails, [deserializeUser] calls
    [done(null, false)], the request carries no user, and
    GET /api/auth/user answers 401; when the request does carry a
    user, that user is the row of the id the session names. *)
Theorem session_resolution_fails_closed (w : World) :
  exists (req_user : option User) (w' : World),
    passport_session w = (Ok req_user, w')
    /\ (forall u, req_user = Some u ->
          db_up w = true /\ session w = Some (id u) /\ In u (users w))
    /\ (forall i, session w = Some i ->
          db_up w = false \/ find_by_id i (users w) = None ->
          deserializeUser i w = (Ok (DoneFalse None), w)
          /\ req_user = None
          /\ session w' = None
          /\ auth_user_route w
             = (Ok (message_response 401 "Not authenticated"), w')).
Proof.
  unfold auth_user_route, passport_session, bind, get_world.
  destruct (session w) as [i|] eqn:Hs.
  - rewrite deserializeUser_total.
    destruct (db_up w) eqn:Hup.
    + destruct (find_by_id i (users w)) as [u|] eqn:Hf.
      * exists (Some u), w. split; [reflexivity|]. split.
        -- intros u' [= <-]. apply find_by_id_found in Hf as [Hin <-].
           auto.
        -- intros i' [= <-] [H|H]; congruence.
      * exists None, (with_session None w). split; [reflexivity|]. split.
        -- discriminate.
        -- intros i' [= <-] _. rewrite deserializeUser_total, Hup, Hf.
           repeat split; reflexivity.
    + exists None, (with_session None w). split; [reflexivity|]. split.
      * discriminate.
      * intros i' [= <-] _. rewrite deserializeUser_total, Hup.
        repeat split; reflexivity.
  - exists None, w. split; [reflexivity|]. split; [discriminate|].
    discriminate.
Qed.

Lemma reset_password_existing (w : World) (e p tok : string) (u : User) :
  db_up w = true -> e <> "" -> p <> "" -> tok <> "" ->
  find_by_email e (users w) = Some u ->
  reset_password_route (Some e) (Some p) (Some tok) w =
  (Ok reset_done,
   with_users (update_row (id u) (set_password (fresh_hash p w)) (users w))
              (with_cursor (cursor w + 16) w)).
Proof.
  intros Hup He Hp Ht Hu. apply String.eqb_neq in He, Hp, Ht.
  unfold LocalAuth.reset_password_route, try_catch, bind, falsy.
  cbv beta iota. rewrite He, Hp, Ht. cbn [orb].
  run_storage Hup. rewrite Hu, hashPassword_eq.
  run_storage Hup. reflexivity.
Qed.

Lemma reset_password_absent (w : World) (e p tok : string) :
  db_up w = true -> e <> "" -> p <> "" -> tok <> "" ->
  find_by_email e (users w) = None ->
  reset_password_route (Some e) (Some p) (Some tok) w = (Ok invalid_reset_link, w).
Proof.
  intros Hup He Hp Ht Hu. apply String.eqb_neq in He, Hp, Ht.
  unfold LocalAuth.reset_password_route, try_catch, bind, falsy.
  cbv beta iota. rewrite He, Hp, Ht. cbn [orb].
  run_storage Hup. rewrite Hu. reflexivity.
Qed.

(** C1, as the code has it. The reset confirmation never looks at the
    value of the token: with an existing account's email, a non-empty
    new password and any non-empty token, it succeeds and stores a
    fresh hash of the new password, one that verifies against it; a
    second call, with the same token or any other, succeeds in the
    same way. The invalid-link answer is given when the email has no
    account, whatever the token. *)
Theorem reset_password_ignores_token
    (w : World) (e p tok1 tok2 : string) (u : User) :
  db_up w = true -> e <> "" -> p <> "" -> tok1 <> "" -> tok2 <> "" ->
  find_by_email e (users w) = Some u ->
  (exists w1 w2,
     reset_password_route (Some e) (Some p) (Some tok1) w = (Ok reset_done, w1)
     /\ find_by_email e (users w1) = Some (set_password (fresh_hash p w) u)
     /\ comparePasswords p (fresh_hash p w) = Ok true
     /\ reset_password_route (Some e) (Some p) (Some tok2) w1 = (Ok reset_done, w2)
     /\ find_by_email e (users w2) = Some (set_password (fresh_hash p w1) u))
  /\ (forall e', e' <> "" -> find_by_email e' (users w) = None ->
        reset_password_route (Some e') (Some p) (Some tok1) w
        = (Ok invalid_reset_link, w)).
Proof.
  intros Hup He Hp Ht1 Ht2 Hu. split.
  - eexists _, _.
    split; [apply (reset_password_existing w e p tok1 u); assumption|].
    assert (Hu1 : find_by_email e
                    (update_row (id u) (set_password (fresh_hash p w)) (users w))
                  = Some (set_password (fresh_hash p w) u)).
    { rewrite (find_by_email_update_row _ _ _ _ u Hu), String.eqb_refl.
      reflexivity. }
    split; [exact Hu1|].
    split.
    { rewrite comparePasswords_record. unfold timingSafeEqual.
      rewrite Nat.eqb_refl, buffer_eqb_refl. reflexivity. }
    split.
    + apply (reset_password_existing _ e p tok2
               (set_password (fresh_hash p w) u)); try assumption.
    + cbn [users with_users with_cursor].
      rewrite (find_by_email_update_row _ _ _ _ _ Hu1).
      cbn [id set_password]. rewrite String.eqb_refl. reflexivity.
  - intros e' He' Hnone. apply reset_password_absent; assumption.
Qed.

Lemma forgot_password_absent (d : Draws) (w : World) (e : string) :
  db_up w = true -> e <> "" -> find_by_email e (users w) = None ->
  forgot_password_route d (Some e) w
  = (Ok (message_response 200 reset_link_sent), w).
Proof.
  intros Hup He Hu. apply String.eqb_neq in He.
  unfold forgot_password_route, try_catch, bind. rewrite He.
  run_storage Hup. rewrite Hu. reflexivity.
Qed.

Lemma forgot_password_existing (d : Draws) (w : World) (e : string) (u : User) :
  db_up w = true -> e <> "" -> find_by_email e (users w) = Some u ->
  forgot_password_route d (Some e) w
  = (Ok (mkResponse 200 (Json [("message", JStr reset_link_sent);
                               ("resetToken", JStr (new_reset_token d))])), w).
Proof.
  intros Hup He Hu. apply String.eqb_neq in He.
  unfold forgot_password_route, try_catch, bind. rewrite He.
  run_storage Hup. rewrite Hu. reflexivity.
Qed.

(** The forgot-password route writes nothing, for any request. *)
Lemma forgot_password_no_write (d : Draws) (w : World) (email : option string) :
  snd (forgot_password_route d email w) = w.
Proof.
  unfold forgot_password_route, try_catch, bind, getUserByEmail.
  destruct email as [e|]; [|reflexivity].
  destruct (e =? ""); [reflexivity|].
  destruct (db_up w); [|reflexivity].
  destruct (find_by_email e (users w)); reflexivity.
Qed.

Lemma passport_session_resolves (w : World) (u : User) :
  db_up w = true -> session w = Some (id u) ->
  find_by_id (id u) (users w) = Some u ->
  passport_session w = (Ok (Some u), w).
Proof.
  intros Hup Hs Hf. unfold passport_session, bind, get_world.
  rewrite Hs, deserializeUser_total, Hup, Hf. reflexivity.
Qed.

Lemma replace_row_hit (u v : User) (us : list User) :
  find_by_id (id u) us = Some v ->
  exists pre post,
    us = (pre ++ v :: post)%list
    /\ replace_row u us = (pre ++ u :: post)%list
    /\ find_by_id (id u) pre = None.
Proof.
  induction us as [|x us IH]; intros H; [discriminate|].
  cbn [find_by_id find] in H. cbn [replace_row].
  destruct (id x =? id u) eqn:E.
  - injection H as <-. exists [], us. repeat split.
  - destruct (IH H) as (pre & post & -> & Hr & Hp).
    exists (x :: pre), post. cbn [app]. rewrite Hr. repeat split.
    cbn [find_by_id find]. rewrite E. exact Hp.
Qed.

(** C6, as the code has it. Registration with an email that some
    account already holds, compared without regard to case, is refused
    with the duplicate-email answer (400, "User already exists") and
    changes nothing. Otherwise the password is hashed and a row with
    the role [user] and the identifier [local_<clock>_<random>] is
    written; the identifier is generated, not checked: when no row has
    it the table gains the new row at its end, and when a row already
    has it that row is replaced by the new one. Then the session is
    set to the row's id, so the next request resolves to it, and the
    answer is 201 with the row; when the session store does not take
    the write, the answer is 500 "Login failed after registration",
    the row stays written and the session is as before. *)
Theorem register_route_outcomes
    (d : Draws) (w : World) (e pw : string) (fn ln : option string) :
  db_up w = true ->
  (forall saved,
     (exists v, In v (users w) /\ toLowerCase (email v) = toLowerCase e) ->
     register_route saved d e pw fn ln w
     = (Ok (message_response 400 "User already exists"), w))
  /\ ((forall v, In v (users w) -> toLowerCase (email v) <> toLowerCase e) ->
      exists (u : User) (w1 : World),
        u = registered_user d e fn ln (fresh_hash pw w)
        /\ id u = new_local_id d /\ email u = e /\ role u = "user"
        /\ password u = Some (fresh_hash pw w)
        /\ comparePasswords pw (fresh_hash pw w) = Ok true
        /\ w1 = with_users (replace_row u (users w))
                  (with_cursor (cursor w + 16) w)
        /\ register_route true d e pw fn ln w
           = (Ok (mkResponse 201 (Json [("user", JUser u);
                                        ("message", JStr "Registration successful")])),
              with_session (Some (id u)) w1)
        /\ register_route false d e pw fn ln w
           = (Ok (message_response 500 "Login failed after registration"), w1)
        /\ find_by_id (id u) (users w1) = Some u
        /\ find_by_email e (users w1) = Some u
        /\ session w1 = session w
        /\ passport_session (with_session (Some (id u)) w1)
           = (Ok (Some u), with_session (Some (id u)) w1)
        /\ (find_by_id (new_local_id d) (users w) = None ->
            users w1 = (users w ++ [u])%list)
        /\ (forall v, find_by_id (new_local_id d) (users w) = Some v ->
            exists pre post,
              users w = (pre ++ v :: post)%list
              /\ users w1 = (pre ++ u :: post)%list
              /\ List.length (users w1) = List.length (users w))).
Proof.
  intros Hup. split.
  - intros saved Hdup. destruct (find_by_email_some e (users w) Hdup) as [v Hv].
    unfold LocalAuth.register_route, try_catch, bind.
    run_storage Hup. rewrite Hv. reflexivity.
  - intros Hnew. pose proof Hnew as Hall. apply find_by_email_none in Hnew.
    set (u := registered_user d e fn ln (fresh_hash pw w)).
    set (w1 := with_users (replace_row u (users w))
                 (with_cursor (cursor w + 16) w)).
    assert (Hf : find_by_id (id u) (users w1) = Some u)
      by apply find_by_id_replace_row.
    assert (Hrun : forall saved,
               register_route saved d e pw fn ln w
               = if saved
                 then (Ok (mkResponse 201
                             (Json [("user", JUser u);
                                    ("message", JStr "Registration successful")])),
                       with_session (Some (id u)) w1)
                 else (Ok (message_response 500 "Login failed after registration"),
                       w1)).
    { intros saved. unfold LocalAuth.register_route, try_catch, bind.
      run_storage Hup. rewrite Hnew, hashPassword_eq.
      run_storage Hup. fold u.
      rewrite (email_taken_none u (users w) Hnew).
      destruct saved; reflexivity. }
    exists u, w1.
    split; [reflexivity|]. split; [reflexivity|]. split; [reflexivity|].
    split; [reflexivity|]. split; [reflexivity|].
    split.
    { rewrite comparePasswords_record. unfold timingSafeEqual.
      rewrite Nat.eqb_refl, buffer_eqb_refl. reflexivity. }
    split; [reflexivity|].
    split; [exact (Hrun true)|]. split; [exact (Hrun false)|].
    split; [exact Hf|].
    assert (Hfe : find_by_email e (replace_row u (users w)) = Some u).
    { clear Hf Hrun. induction (users w) as [|x us IH];
        cbn [replace_row find_by_email find].
      - unfold same_email. cbn [email u registered_user].
        rewrite String.eqb_refl. reflexivity.
      - cbn [find_by_email find] in Hnew.
        destruct (same_email (email x) e) eqn:Ex; [discriminate|].
        destruct (id x =? id u); cbn [find].
        + unfold same_email. cbn [email u registered_user].
          rewrite String.eqb_refl. reflexivity.
        + rewrite Ex. apply IH; [exact Hnew|].
          intros v Hv. apply Hall. right. exact Hv. }
    split; [exact Hfe|]. split; [reflexivity|].
    split.
    { apply passport_session_resolves; [exact Hup|reflexivity|exact Hf]. }
    split.
    { intros Hid. apply (replace_row_fresh u (users w)). exact Hid. }
    intros v Hv.
    destruct (replace_row_hit u v (users w) Hv) as (pre & post & E1 & E2 & _).
    exists pre, post. split; [exact E1|].
    unfold w1. cbn [users with_users]. split; [exact E2|].
    rewrite E2, E1, !length_app. reflexivity.
Qed.

End Authenticator.

(** ** What a failed login looks like *)

Section LoginOutcomes.
Import Js Hex Data Async Storage LocalAuth.

Variable scrypt : string -> string -> nat -> Buffer.

Local Abbreviation comparePasswords := (LocalAuth.comparePasswords scrypt).
Local Abbreviation verify := (LocalAuth.verify scrypt).
Local Abbreviation verification_fails := (LocalAuth.verification_fails scrypt).
Local Abbreviation login_route := (LocalAuth.login_route scrypt).

Lemma verify_compared (w : World) (e pw stored : string) (u : User) :
  db_up w = true -> find_by_email e (users w) = Some u ->
  password u = Some stored -> stored <> "" ->
  verify e pw w
  = (Ok match comparePasswords pw stored with
        | Ok true => DoneUser u
        | Ok false => invalid_credentials
        | Throw err => DoneError err
        end, w).
Proof.
  intros Hup Hu Hpw Hne. apply String.eqb_neq in Hne.
  unfold LocalAuth.verify, try_catch, bind, getUserByEmail.
  rewrite Hup, Hu, Hpw, Hne. unfold lift.
  destruct (comparePasswords pw stored) as [[|]|err]; reflexivity.
Qed.

Lemma login_route_by_verify (w : World) (e pw : string) :
  e <> "" -> pw <> "" ->
  login_route (Some e) (Some pw) w
  = match verify e pw w with
    | (Ok (DoneError _), w') => (Ok error_page, w')
    | (Ok (DoneFalse _), w') => (Ok (mkResponse 401 (Text "Unauthorized")), w')
    | (Ok (DoneUser u), w') =>
        (Ok (mkResponse 200 (Json [("user", JUser u);
                                   ("message", JStr "Login successful")])),
         with_session (Some (id u)) w')
    | (Throw err, w') => (Throw err, w')
    end.
Proof.
  intros He Hp. apply String.eqb_neq in He, Hp.
  unfold LocalAuth.login_route, bind. cbv beta iota. rewrite He, Hp. cbn [orb].
  destruct (verify e pw w) as [[[err|info|u]|err] w']; reflexivity.
Qed.

Hypothesis scrypt_length : forall pw salt n, List.length (scrypt pw salt n) = n.

Lemma comparePasswords_malformed (supplied stored : string) :
  well_formed_record stored = false ->
  exists err, comparePasswords supplied stored = Throw err.
Proof.
  intros H. apply andb_false_iff in H.
  destruct (contains_char "." stored) eqn:Hd.
  - destruct H as [H|H]; [discriminate|]. apply Nat.eqb_neq in H.
    destruct (comparePasswords_bad_length scrypt scrypt_length supplied stored Hd H)
      as [m E].
    eexists. exact E.
  - destruct (comparePasswords_no_delimiter scrypt supplied stored Hd) as [m E].
    eexists. exact E.
Qed.

Lemma comparePasswords_well_formed (supplied stored : string) :
  well_formed_record stored = true ->
  exists b, comparePasswords supplied stored = Ok b.
Proof.
  intros H. apply andb_true_iff in H as [Hd Hl]. apply Nat.eqb_eq in Hl.
  unfold LocalAuth.comparePasswords, key_part in *.
  destruct (split_has_sep _ _ Hd) as (a & b & rest & E). rewrite E in *.
  cbn [nth nth_error scryptAsync rbind] in *. unfold timingSafeEqual.
  rewrite scrypt_length, Hl. eexists. reflexivity.
Qed.


End LoginOutcomes.

(** ** Role gates and user provisioning *)

Section RoleGates.
Import Js Hex Data Async Storage LocalAuth Routes.

Lemma isAdmin_found (w : World) (ru u : User) :
  db_up w = true -> id ru <> "" -> find_by_id (id ru) (users w) = Some u ->
  isAdmin (Some ru) w
  = (Ok (if role u =? "admin" then Next
         else Reply (forbidden "Admin access required")), w).
Proof.
  intros Hup Hid Hf. apply String.eqb_neq in Hid.
  unfold isAdmin, try_catch, bind, getUser. rewrite Hid, Hup, Hf.
  destruct (role u =? "admin"); reflexivity.
Qed.

Lemma require_role_admin_found
    (denied : string) (failed : JsError -> Response) (w : World) (ru u : User) :
  db_up w = true -> find_by_id (id ru) (users w) = Some u ->
  require_role_admin denied failed ru w
  = (Ok (if role u =? "admin" then Next else Reply (forbidden denied)), w).
Proof.
  intros Hup Hf. unfold require_role_admin, try_catch, bind, getUser.
  rewrite Hup, Hf. destruct (role u =? "admin"); reflexivity.
Qed.

Lemma deny_role_user_found
    (denied : string) (failed : JsError -> Response) (w : World) (ru u : User) :
  db_up w = true -> find_by_id (id ru) (users w) = Some u ->
  deny_role_user denied failed ru w
  = (Ok (if role u =? "user" then Reply (forbidden denied) else Next), w).
Proof.
  intros Hup Hf. unfold deny_role_user, try_catch, bind, getUser.
  rewrite Hup, Hf. destruct (role u =? "user"); reflexivity.
Qed.

(** C7. For a principal whose role is [user], [manager] or [admin],
    the gates decide by the order [user < manager < admin]. The admin
    gates (the [isAdmin] middleware and the inline
    [role !== "admin"] check) let the request through exactly when the
    role ranks at least [admin] and answer 403 otherwise, so [user] and
    [manager] are refused and [admin] is admitted. The manager gates
    (the inline [role === "user"] check) let it through exactly when
    the role ranks at least [manager] and answer 403 otherwise, so
    [user] is refused and [manager] and [admin] are admitted. *)
Theorem role_gates_follow_order
    (denied : string) (failed : JsError -> Response) (w : World) (ru u : User) :
  db_up w = true -> id ru <> "" ->
  find_by_id (id ru) (users w) = Some u ->
  In (role u) ["user"; "manager"; "admin"] ->
  isAdmin (Some ru) w
  = (Ok (if ranks_at_least "admin" (role u) then Next
         else Reply (forbidden "Admin access required")), w)
  /\ require_role_admin denied failed ru w
     = (Ok (if ranks_at_least "admin" (role u) then Next
            else Reply (forbidden denied)), w)
  /\ deny_role_user denied failed ru w
     = (Ok (if ranks_at_least "manager" (role u) then Next
            else Reply (forbidden denied)), w)
  /\ (role u = "user" \/ role u = "manager" ->
      isAdmin (Some ru) w = (Ok (Reply (forbidden "Admin access required")), w)
      /\ require_role_admin denied failed ru w = (Ok (Reply (forbidden denied)), w))
  /\ (role u = "admin" ->
      isAdmin (Some ru) w = (Ok Next, w)
      /\ require_role_admin denied failed ru w = (Ok Next, w))
  /\ (role u = "user" ->
      deny_role_user denied failed ru w = (Ok (Reply (forbidden denied)), w))
  /\ (role u = "manager" \/ role u = "admin" ->
      deny_role_user denied failed ru w = (Ok Next, w))
  /\ is_forbidden (Reply (forbidden denied)) = true.
Proof.
  intros Hup Hid Hf Hrole.
  rewrite (isAdmin_found w ru u Hup Hid Hf).
  rewrite (require_role_admin_found denied failed w ru u Hup Hf).
  rewrite (deny_role_user_found denied failed w ru u Hup Hf).
  cbn [In] in Hrole.
  destruct Hrole as [<-|[<-|[<-|[]]]]; cbn;
    repeat split; try reflexivity; intros;
    repeat match goal with
           | E : _ \/ _ |- _ => destruct E
           end;
    match goal with
    | E : @eq string _ _ |- _ => discriminate E
    end.
Qed.

End RoleGates.

Section Provisioning.
Import Js Hex Data Async Storage LocalAuth Routes.

Lemma length_append (a b : string) :
  String.length (a ++ b) = String.length a + String.length b.
Proof. induction a as [|c a IH]; cbn; [reflexivity|]. rewrite IH. reflexivity. Qed.

Lemma contains_char_append (c : ascii) (a b : string) :
  contains_char c (a ++ b) = contains_char c a || contains_char c b.
Proof.
  induction a as [|x a IH]; [reflexivity|].
  cbn [append]. rewrite !contains_char_cons, IH. apply orb_assoc.
Qed.

(** Every position of the charset holds one character, and it is not
    the delimiter of a hash record. *)
Lemma charAt_charset (k : nat) :
  k < 69 ->
  String.length (charAt charset k) = 1
  /\ contains_char "." (charAt charset k) = false.
Proof.
  intros H.
  do 69 (destruct k as [|k]; [split; reflexivity|]).
  exfalso. lia.
Qed.

Lemma password_loop (pick : nat -> nat) (l : list nat) (acc : string) :
  let out := fold_left
               (fun pw i => pw ++ charAt charset (pick i mod String.length charset))
               l acc in
  String.length out = String.length acc + List.length l
  /\ contains_char "." out = contains_char "." acc.
Proof.
  revert acc. induction l as [|i l IH]; intros acc; cbn [fold_left].
  - split; [cbn; lia|reflexivity].
  - destruct (IH (acc ++ charAt charset (pick i mod String.length charset)))
      as [Hl Hc].
    assert (Hk : pick i mod String.length charset < 69)
      by (apply Nat.mod_upper_bound; discriminate).
    destruct (charAt_charset _ Hk) as [H1 H2].
    cbv zeta in *. rewrite Hl, Hc, length_append, contains_char_append, H1, H2.
    split; [cbn [List.length]; lia|apply orb_false_r].
Qed.

(** The generated password: twelve characters, no delimiter. *)
Lemma generateSecurePassword_shape (pick : nat -> nat) :
  String.length (generateSecurePassword pick) = 12
  /\ contains_char "." (generateSecurePassword pick) = false.
Proof.
  unfold generateSecurePassword.
  destruct (password_loop pick (seq 0 12) "") as [Hl Hc].
  cbv zeta in *. rewrite Hl, Hc. split; reflexivity.
Qed.

(** A branch of a handler that answers with another status. *)
Ltac refused :=
  match goal with
  | Hrun : _ = (Ok ?r, _), Hst : status ?r = _ |- _ =>
      cbv beta iota in Hrun; injection Hrun as <- <-; discriminate Hst
  end.

(** C10. Whenever POST /api/admin/users answers 201, the row it wrote
    for the new user holds, in its password column, the generated
    temporary password itself: twelve characters of the charset,
    stored as they are. The stored value has no delimiter, so it is not
    a hash record, and comparing any supplied password with it throws
    instead of answering. The password is left out of the response. *)
Theorem admin_created_user_keeps_plaintext
    (pick : nat -> nat) (username email role licenseType : option string)
    (w w' : World) (r : Response) :
  admin_create_user pick username email role licenseType w = (Ok r, w') ->
  status r = 201 ->
  exists (name e : string) (u : User),
    username = Some name /\ email = Some e
    /\ u = provisioned_user name e role licenseType (generateSecurePassword pick)
    /\ find_by_id name (users w') = Some u
    /\ password u = Some (generateSecurePassword pick)
    /\ String.length (generateSecurePassword pick) = 12
    /\ well_formed_record (generateSecurePassword pick) = false
    /\ (forall scrypt supplied,
          is_TypeError
            (comparePasswords scrypt supplied (generateSecurePassword pick)))
    /\ has_field "password" r = false.
Proof.
  intros Hrun Hst.
  destruct (generateSecurePassword_shape pick) as [Hl Hc].
  unfold admin_create_user, try_catch, bind, getUser, upsertUser in Hrun.
  destruct username as [name|]; [|refused].
  destruct email as [e|]; [|refused].
  cbv beta iota in Hrun.
  destruct ((name =? "") || (e =? "")); [refused|].
  destruct (db_up w) eqn:Hup; [|refused].
  destruct (find_by_id name (users w)); [refused|].
  cbv beta iota in Hrun. rewrite Hup in Hrun. cbn [negb] in Hrun.
  destruct (email_taken _ (users w)); [refused|].
  cbv beta iota in Hrun. injection Hrun as <- <-.
  eexists name, e, _. repeat split; try reflexivity.
  - apply (find_by_id_replace_row
             (provisioned_user name e role licenseType (generateSecurePassword pick))).
  - exact Hl.
  - unfold well_formed_record. rewrite Hc. reflexivity.
  - intros scrypt supplied. apply comparePasswords_no_delimiter. exact Hc.
Qed.

End Provisioning.

(** ** The theorems at the sample instances *)

Lemma kdf_length (pw salt : string) (n : nat) :
  List.length (Sample.kdf pw salt n) = n.
Proof. unfold Sample.kdf. rewrite length_map, length_seq. reflexivity. Qed.

(** C2, on the code. For an email that has an account the
    forgot-password answer carries a [resetToken] field; for an email
    that has none it carries the message only. Status and message are
    the same and neither request writes anything, but the two answers
    differ. *)
Theorem forgot_password_reveals_account :
  let existing :=
    LocalAuth.forgot_password_route Sample.draws (Some "alice@example.com")
                                    Sample.world1 in
  let absent :=
    LocalAuth.forgot_password_route Sample.draws (Some "nobody@example.com")
                                    Sample.world1 in
  Storage.find_by_email "alice@example.com" (Data.users Sample.world1)
  = Some Sample.alice
  /\ Storage.find_by_email "nobody@example.com" (Data.users Sample.world1) = None
  /\ fst existing
     = Js.Ok (Data.mkResponse 200
                (Data.Json [("message", Data.JStr LocalAuth.reset_link_sent);
                            ("resetToken", Data.JStr "4fzyo82mvyrmcmt8qo0")]))
  /\ fst absent
     = Js.Ok (Data.mkResponse 200
                (Data.Json [("message", Data.JStr LocalAuth.reset_link_sent)]))
  /\ fst existing <> fst absent
  /\ snd existing = Sample.world1 /\ snd absent = Sample.world1.
Proof.
  cbv zeta.
  split; [reflexivity|]. split; [reflexivity|].
  split; [reflexivity|]. split; [reflexivity|].
  split; [|split; reflexivity].
  vm_compute. discriminate.
Qed.

(** C1 fails on the code: a token that was never issued redeems, and
    redeems again. *)
Lemma reset_token_reuse_counterexample :
  let redeem :=
    LocalAuth.reset_password_route Sample.kdf Sample.tape
      (Some "alice@example.com") (Some "newpass456") (Some "never-issued") in
  let w1 := snd (redeem Sample.world1) in
  fst (redeem Sample.world1) = Js.Ok LocalAuth.reset_done
  /\ fst (redeem w1) = Js.Ok LocalAuth.reset_done
  /\ fst (redeem w1) <> Js.Ok LocalAuth.invalid_reset_link
  /\ Data.status LocalAuth.reset_done = 200.
Proof.
  cbv zeta.
  split; [vm_compute; reflexivity|]. split; [vm_compute; reflexivity|].
  split; [|reflexivity].
  vm_compute. discriminate.
Qed.

Lemma reset_password_ignores_token_witness :
  let w := Sample.world1 in
  let e := "alice@example.com" in
  let p := "newpass456" in
  exists w1 w2,
    LocalAuth.reset_password_route Sample.kdf Sample.tape
      (Some e) (Some p) (Some "T") w = (Js.Ok LocalAuth.reset_done, w1)
    /\ LocalAuth.reset_password_route Sample.kdf Sample.tape
         (Some e) (Some p) (Some "T") w1 = (Js.Ok LocalAuth.reset_done, w2).
Proof.
  cbv zeta.
  destruct (reset_password_ignores_token Sample.kdf Sample.tape Sample.world1
              "alice@example.com" "newpass456" "T" "T" Sample.alice)
    as [(w1 & w2 & H1 & _ & _ & H2 & _) _];
    [reflexivity | discriminate | discriminate | discriminate | discriminate
    | reflexivity | ].
  exists w1, w2. split; [exact H1 | exact H2].
Defined.

(** C4 fails on the code: a stored string without the delimiter, such
    as a password kept in plain text, and one whose key part is not
    the hex of 64 bytes make the comparison throw. *)
Lemma comparePasswords_throws_counterexample :
  LocalAuth.well_formed_record "Xy7!abcdefgh" = false
  /\ LocalAuth.comparePasswords Sample.kdf "secret" "Xy7!abcdefgh"
     = Js.Throw (Js.TypeError "The salt argument must be of type string")
  /\ LocalAuth.well_formed_record "zz.00ff" = false
  /\ LocalAuth.comparePasswords Sample.kdf "secret" "zz.00ff"
     = Js.Throw (Js.RangeError "Input buffers must have the same byte length")
  /\ LocalAuth.comparePasswords Sample.kdf "secret" "Xy7!abcdefgh" <> Js.Ok false.
Proof.
  split; [reflexivity|]. split; [vm_compute; reflexivity|].
  split; [vm_compute; reflexivity|]. split; [vm_compute; reflexivity|].
  vm_compute. discriminate.
Qed.

Lemma comparePasswords_outcome_witness :
  (forall pw salt n, List.length (Sample.kdf pw salt n) = n)
  /\ Js.is_TypeError
       (LocalAuth.comparePasswords Sample.kdf "secret" "Xy7!abcdefgh")
  /\ Js.is_RangeError
       (LocalAuth.comparePasswords Sample.kdf "secret" "zz.00ff")
  /\ exists salt,
       nth_error (Js.split "." (Sample.hash_of "correcthorse123" Sample.empty_world)) 1
       = Some salt
       /\ LocalAuth.comparePasswords Sample.kdf "secret"
            (Sample.hash_of "correcthorse123" Sample.empty_world)
          = Js.Ok (Hex.buffer_eqb
                     (Hex.from_hex
                        (LocalAuth.key_part
                           (Sample.hash_of "correcthorse123" Sample.empty_world)))
                     (Sample.kdf "secret" salt 64)).
Proof.
  split; [exact kdf_length|].
  split; [|split].
  - apply (comparePasswords_outcome Sample.kdf kdf_length "secret" "Xy7!abcdefgh").
    reflexivity.
  - apply (comparePasswords_outcome Sample.kdf kdf_length "secret" "zz.00ff").
    + reflexivity.
    + vm_compute. discriminate.
  - apply (comparePasswords_outcome Sample.kdf kdf_length "secret"
             (Sample.hash_of "correcthorse123" Sample.empty_world)).
    vm_compute. reflexivity.
Defined.

Lemma hashPassword_shape_witness :
  (forall pw salt n, List.length (Sample.kdf pw salt n) = n)
  /\ exists (salt key : Hex.Buffer) (h : string),
       LocalAuth.hashPassword Sample.kdf Sample.tape "correcthorse123"
         Sample.empty_world
       = (Js.Ok h, Data.with_cursor 16 Sample.empty_world)
       /\ List.length salt = 16 /\ List.length key = 64
       /\ h = (Hex.toString_hex key ++ "." ++ Hex.toString_hex salt)%string.
Proof.
  split; [exact kdf_length|].
  destruct (hashPassword_shape Sample.kdf Sample.tape kdf_length
              "correcthorse123" Sample.empty_world)
    as (salt & key & h & H1 & _ & H3 & _ & _ & H6 & _ & H8 & _).
  exists salt, key, h. repeat split; assumption.
Defined.



Lemma session_resolution_fails_closed_witness :
  let w := Data.mkWorld [Sample.alice] true (Some "local_0_deleted") 16 in
  LocalAuth.auth_user_route w
  = (Js.Ok (Data.message_response 401 "Not authenticated"),
     Data.with_session None w).
Proof.
  cbv zeta.
  destruct (session_resolution_fails_closed
              (Data.mkWorld [Sample.alice] true (Some "local_0_deleted") 16))
    as (req_user & w' & Hrun & _ & Hclosed).
  destruct (Hclosed "local_0_deleted" eq_refl (or_intror eq_refl))
    as (_ & Hnone & _ & Hroute).
  rewrite Hroute. f_equal.
  rewrite Hnone in Hrun. vm_compute in Hrun. injection Hrun as <-.
  reflexivity.
Defined.

Lemma register_route_outcomes_witness :
  let w := Sample.world1 in
  LocalAuth.register_route Sample.kdf Sample.tape true Sample.draws
    "ALICE@example.com" "hunter2!" (Some "Al") (Some "Ice") w
  = (Js.Ok (Data.message_response 400 "User already exists"), w)
  /\ exists (u : Data.User) (w1 : Data.World),
       LocalAuth.register_route Sample.kdf Sample.tape true Sample.draws
         "bob@example.com" "hunter2!" (Some "Bob") (Some "B") w
       = (Js.Ok (Data.mkResponse 201
                   (Data.Json [("user", Data.JUser u);
                               ("message", Data.JStr "Registration successful")])),
          Data.with_session (Some (Data.id u)) w1)
       /\ LocalAuth.register_route Sample.kdf Sample.tape false Sample.draws
            "bob@example.com" "hunter2!" (Some "Bob") (Some "B") w
          = (Js.Ok (Data.message_response 500 "Login failed after registration"),
             w1)
       /\ Data.role u = "user"
       /\ Data.users w1 = (Data.users w ++ [u])%list.
Proof.
  cbv zeta.
  destruct (register_route_outcomes Sample.kdf Sample.tape Sample.draws
              Sample.world1 "ALICE@example.com" "hunter2!" (Some "Al") (Some "Ice")
              eq_refl) as [Hdup _].
  destruct (register_route_outcomes Sample.kdf Sample.tape Sample.draws
              Sample.world1 "bob@example.com" "hunter2!" (Some "Bob") (Some "B")
              eq_refl) as [_ Hnew].
  split.
  - apply Hdup. exists Sample.alice. split; [left; reflexivity | reflexivity].
  - destruct Hnew
      as (u & w1 & _ & _ & _ & Hrole & _ & _ & _ & H201 & H500 & _ & _ & _ & _
          & Hrows & _).
    + intros v [<-|[<-|[<-|[]]]]; vm_compute; discriminate.
    + exists u, w1. split; [exact H201|]. split; [exact H500|].
      split; [exact Hrole|]. apply Hrows. reflexivity.
Defined.

(** C6 fails on the code: the identifier is not checked for
    freshness. A second registration that draws the clock and random
    readings of an earlier one is answered 201 and takes over the
    earlier account's row: the table has as many rows as before and
    the earlier email has no account any more. *)
Lemma register_overwrites_counterexample :
  let first :=
    LocalAuth.register_route Sample.kdf Sample.tape true Sample.draws
      "bob@example.com" "hunter2!" (Some "Bob") (Some "B") Sample.world1 in
  let w1 := snd first in
  let second :=
    LocalAuth.register_route Sample.kdf Sample.tape true Sample.draws
      "carol@example.com" "s3cret!" (Some "Carol") (Some "C")
      (Data.with_session None w1) in
  let w2 := snd second in
  (exists r, fst first = Js.Ok r /\ Data.status r = 201)
  /\ (exists r, fst second = Js.Ok r /\ Data.status r = 201)
  /\ (exists bob, Storage.find_by_email "bob@example.com" (Data.users w1) = Some bob
                  /\ Storage.find_by_id (LocalAuth.new_local_id Sample.draws)
                       (Data.users w1) = Some bob)
  /\ List.length (Data.users w2) = List.length (Data.users w1)
  /\ Storage.find_by_email "bob@example.com" (Data.users w2) = None.
Proof.
  cbv zeta.
  split; [eexists; split; vm_compute; reflexivity|].
  split; [eexists; split; vm_compute; reflexivity|].
  split; [eexists; split; vm_compute; reflexivity|].
  split; vm_compute; reflexivity.
Qed.

Lemma role_gates_follow_order_witness :
  Routes.isAdmin (Some Sample.mallory) Sample.world1
  = (Js.Ok (LocalAuth.Reply (Routes.forbidden "Admin access required")),
     Sample.world1)
  /\ Routes.sftp_files_role_check Sample.mallory Sample.world1
     = (Js.Ok LocalAuth.Next, Sample.world1)
  /\ Routes.isAdmin (Some Sample.root) Sample.world1
     = (Js.Ok LocalAuth.Next, Sample.world1)
  /\ Routes.sftp_files_role_check Sample.alice Sample.world1
     = (Js.Ok (LocalAuth.Reply
                 (Routes.forbidden "SFTP access requires manager or admin role")),
        Sample.world1).
Proof.
  pose proof (role_gates_follow_order
                "SFTP access requires manager or admin role"
                (Routes.failure_response "Failed to list SFTP files")
                Sample.world1 Sample.mallory Sample.mallory) as Hm.
  pose proof (role_gates_follow_order
                "SFTP access requires manager or admin role"
                (Routes.failure_response "Failed to list SFTP files")
                Sample.world1 Sample.root Sample.root) as Hr.
  pose proof (role_gates_follow_order
                "SFTP access requires manager or admin role"
                (Routes.failure_response "Failed to list SFTP files")
                Sample.world1 Sample.alice Sample.alice) as Ha.
  destruct Hm as (_ & _ & _ & Hm1 & _ & _ & Hm2 & _);
    [reflexivity | discriminate | reflexivity
    | right; left; reflexivity | ].
  destruct Hr as (_ & _ & _ & _ & Hr1 & _);
    [reflexivity | discriminate | reflexivity
    | right; right; left; reflexivity | ].
  destruct Ha as (_ & _ & _ & _ & _ & Ha1 & _);
    [reflexivity | discriminate | reflexivity | left; reflexivity | ].
  split; [apply Hm1; right; reflexivity|].
  split; [apply Hm2; left; reflexivity|].
  split; [apply Hr1; reflexivity|].
  apply Ha1. reflexivity.
Defined.

Lemma admin_created_user_keeps_plaintext_witness :
  exists (r : Data.Response) (w' : Data.World) (u : Data.User),
    Routes.admin_create_user Sample.pick (Some "carol")
      (Some "carol@example.com") (Some "manager") None Sample.world1
    = (Js.Ok r, w')
    /\ Data.status r = 201
    /\ Storage.find_by_id "carol" (Data.users w') = Some u
    /\ Data.password u = Some "dozKV6alwHS3".
Proof.
  destruct (Routes.admin_create_user Sample.pick (Some "carol")
              (Some "carol@example.com") (Some "manager") None Sample.world1)
    as [res w'] eqn:Hrun.
  destruct res as [r|err]; [|vm_compute in Hrun; discriminate Hrun].
  assert (Hst : Data.status r = 201).
  { vm_compute in Hrun. injection Hrun as <- _. reflexivity. }
  destruct (admin_created_user_keeps_plaintext _ _ _ _ _ _ _ _ Hrun Hst)
    as (name & e & u & Hname & _ & _ & Hfind & Hpw & _).
  injection Hname as <-.
  exists r, w', u. repeat split; try assumption.
Defined.

(** * Further properties of the routes *)

Section Flows.
Import Js Hex Data Async Storage LocalAuth Routes Accounts.

Variable scrypt : string -> string -> nat -> Buffer.
Variable entropy : nat -> byte.

Local Abbreviation hashPassword := (LocalAuth.hashPassword scrypt entropy).
Local Abbreviation comparePasswords := (LocalAuth.comparePasswords scrypt).
Local Abbreviation salt_at := (LocalAuth.salt_at entropy).
Local Abbreviation verify := (LocalAuth.verify scrypt).
Local Abbreviation login_route := (LocalAuth.login_route scrypt).
Local Abbreviation register_route := (LocalAuth.register_route scrypt entropy).
Local Abbreviation reset_password_route :=
  (LocalAuth.reset_password_route scrypt entropy).
Local Abbreviation admin_reset_password :=
  (Accounts.admin_reset_password scrypt entropy).
Local Abbreviation fresh_hash pw w :=
  (record_of (scrypt pw (toString_hex (salt_at w)) 64) (salt_at w)).

Ltac run_store Hup :=
  unfold getUserByEmail, getUser, upsertUser, updateUser_password, deleteUser;
  cbn [db_up users session cursor with_users with_cursor with_session];
  rewrite ?Hup; cbn [negb].

Lemma record_of_nonempty (key salt : Buffer) :
  (record_of key salt =? "") = false.
Proof.
  unfold record_of. destruct (toString_hex key); reflexivity.
Qed.

Lemma toLowerCase_nonempty (s : string) : s <> "" -> toLowerCase s <> "".
Proof. destruct s; [congruence|discriminate]. Qed.

Lemma find_by_email_lower (a b : string) (us : list User) :
  toLowerCase a = toLowerCase b -> find_by_email a us = find_by_email b us.
Proof.
  intros H. unfold find_by_email, same_email. rewrite H. reflexivity.
Qed.

Lemma find_by_email_replace_row (e : string) (u : User) (us : list User) :
  find_by_email e us = None -> same_email (email u) e = true ->
  find_by_email e (replace_row u us) = Some u.
Proof.
  intros Hnone Hu. induction us as [|v us IH]; cbn [replace_row find_by_email find].
  - rewrite Hu. reflexivity.
  - cbn [find_by_email find] in Hnone.
    destruct (same_email (email v) e) eqn:Ev; [discriminate|].
    destruct (id v =? id u); cbn [find].
    + rewrite Hu. reflexivity.
    + rewrite Ev. apply IH. exact Hnone.
Qed.

(** The login route on an account whose stored record was derived
    from the supplied password. *)
Lemma login_accepts (w : World) (e p : string) (u : User) (key salt : Buffer) :
  db_up w = true -> e <> "" -> p <> "" ->
  find_by_email e (users w) = Some u ->
  password u = Some (record_of key salt) ->
  key = scrypt p (toString_hex salt) 64 ->
  login_route (Some e) (Some p) w
  = (Ok (mkResponse 200 (Json [("user", JUser u);
                               ("message", JStr "Login successful")])),
     with_session (Some (id u)) w).
Proof.
  intros Hup He Hp Hu Hpw Hkey. apply String.eqb_neq in He, Hp.
  unfold LocalAuth.login_route, bind. cbv beta iota. rewrite He, Hp. cbn [orb].
  unfold LocalAuth.verify, try_catch, bind. run_store Hup.
  rewrite Hu, Hpw, record_of_nonempty. unfold lift.
  rewrite comparePasswords_record, <- Hkey. unfold timingSafeEqual.
  rewrite Nat.eqb_refl, buffer_eqb_refl. reflexivity.
Qed.

Lemma passport_session_eq (w : World) :
  passport_session w
  = match session w with
    | None => (Ok None, w)
    | Some i =>
        if db_up w then
          match find_by_id i (users w) with
          | Some u => (Ok (Some u), w)
          | None => (Ok None, with_session None w)
          end
        else (Ok None, with_session None w)
    end.
Proof.
  unfold passport_session, bind, get_world.
  destruct (session w) as [i|]; [|reflexivity].
  rewrite deserializeUser_total.
  destruct (db_up w); [|reflexivity].
  destruct (find_by_id i (users w)); reflexivity.
Qed.

Lemma passport_session_world (w : World) :
  snd (passport_session w)
  = if session_resolves w then w else with_session None w.
Proof.
  rewrite passport_session_eq. unfold session_resolves.
  destruct (session w) as [i|]; [|reflexivity].
  destruct (db_up w); [|reflexivity].
  destruct (find_by_id i (users w)); reflexivity.
Qed.

Lemma passport_session_total (w : World) :
  exists ru w', passport_session w = (Ok ru, w').
Proof.
  rewrite passport_session_eq.
  destruct (session w) as [i|]; [|eexists _, _; reflexivity].
  destruct (db_up w); [|eexists _, _; reflexivity].
  destruct (find_by_id i (users w)); eexists _, _; reflexivity.
Qed.

Lemma passport_session_idempotent (w : World) :
  passport_session (snd (passport_session w))
  = (fst (passport_session w), snd (passport_session w)).
Proof.
  rewrite (passport_session_eq w).
  destruct (session w) as [i|] eqn:Hs.
  - destruct (db_up w) eqn:Hup.
    + destruct (find_by_id i (users w)) eqn:Hf; cbn [fst snd].
      * rewrite passport_session_eq, Hs, Hup, Hf. reflexivity.
      * reflexivity.
    + reflexivity.
  - cbn [fst snd]. rewrite passport_session_eq, Hs. reflexivity.
Qed.


(** X2. With the database down, the handlers of [localAuth.ts] catch
    the storage fault: registration, forgot-password and
    reset-password answer 500 with their own message, the verify
    callback of the login hands the fault to [done], and nothing of
    the world is changed. *)
Theorem storage_outage_is_reported
    (saved : bool) (d : Draws) (w : World) (e pw a b t : string)
    (fn ln : option string) :
  db_up w = false -> a <> "" -> b <> "" -> t <> "" ->
  register_route saved d e pw fn ln w
  = (Ok (message_response 500 "Registration failed"), w)
  /\ forgot_password_route d (Some a) w
     = (Ok (message_response 500 "Passwort-Reset fehlgeschlagen"), w)
  /\ reset_password_route (Some a) (Some b) (Some t) w
     = (Ok (message_response 500 "Passwort-Reset fehlgeschlagen"), w)
  /\ verify a b w = (Ok (DoneError unavailable), w).
Proof.
  intros Hup Ha Hb Ht. apply String.eqb_neq in Ha, Hb, Ht.
  repeat split.
  - unfold LocalAuth.register_route, try_catch, bind, getUserByEmail.
    rewrite Hup. reflexivity.
  - unfold forgot_password_route, try_catch, bind, getUserByEmail.
    rewrite Ha, Hup. reflexivity.
  - unfold LocalAuth.reset_password_route, try_catch, bind, getUserByEmail, falsy.
    cbv beta iota. rewrite Ha, Hb, Ht. cbn [orb]. rewrite Hup. reflexivity.
  - unfold LocalAuth.verify, try_catch, bind, getUserByEmail.
    rewrite Hup. reflexivity.
Qed.

(** X3. The reset confirmation answers 400 "Alle Felder sind
    erforderlich" whenever the email, the new password or the token is
    missing or empty, and the forgot-password request answers 400
    whenever the email is; both do so before any storage call, so the
    answer is the same with the database down, and nothing changes. *)
Theorem reset_routes_require_their_fields
    (d : Draws) (w : World) (em pwd tok : option string) :
  (falsy em || falsy pwd || falsy tok = true ->
   reset_password_route em pwd tok w
   = (Ok (message_response 400 "Alle Felder sind erforderlich"), w))
  /\ (falsy em = true ->
      forgot_password_route d em w
      = (Ok (message_response 400 "E-Mail-Adresse ist erforderlich"), w)).
Proof.
  split.
  - intros H. unfold LocalAuth.reset_password_route, try_catch, bind.
    destruct em as [a|]; [|reflexivity]. destruct pwd as [b|]; [|reflexivity].
    cbn [falsy] in H. rewrite H. reflexivity.
  - intros H. unfold forgot_password_route, try_catch, bind.
    destruct em as [a|]; [|reflexivity]. cbn [falsy] in H. rewrite H.
    reflexivity.
Qed.



(** X6. A reset followed by a login: after a reset confirmation was
    accepted for an account, a login with that email and the new
    password is answered 200 with the account's row, whose id, email
    and role are the ones it had, and opens its session. *)
Theorem reset_then_login (w : World) (e p tok : string) (u : User) :
  db_up w = true -> e <> "" -> p <> "" -> tok <> "" ->
  find_by_email e (users w) = Some u ->
  exists (u1 : User) (w1 : World),
    reset_password_route (Some e) (Some p) (Some tok) w = (Ok reset_done, w1)
    /\ id u1 = id u /\ email u1 = email u /\ role u1 = role u
    /\ login_route (Some e) (Some p) w1
       = (Ok (mkResponse 200 (Json [("user", JUser u1);
                                    ("message", JStr "Login successful")])),
          with_session (Some (id u)) w1).
Proof.
  intros Hup He Hp Ht Hu.
  exists (set_password (fresh_hash p w) u). eexists. split.
  { apply (reset_password_existing scrypt entropy w e p tok u); assumption. }
  repeat split.
  apply (login_accepts _ e p (set_password (fresh_hash p w) u)
           (scrypt p (toString_hex (salt_at w)) 64) (salt_at w));
    try assumption; try reflexivity.
  cbn [users with_users with_cursor].
  rewrite (find_by_email_update_row _ _ _ _ u Hu), String.eqb_refl.
  reflexivity.
Qed.

(** X7. Logout answers by what the session store does with the
    write. When the store takes it, the answer is 200, the session is
    emptied whatever it held, nothing else is touched, and from then
    on the session check answers 401 and every route behind
    [isAuthenticated] answers 401 "Unauthorized" without running its
    handler. When the store does not take it, the answer is 500
    "Logout failed" and the session stays: a user it resolved to
    before is still logged in for the next request. *)
Theorem logout_by_session_store
    (w : World) (handler : User -> M Response) :
  logout_route true w
  = (Ok (message_response 200 "Logout successful"), with_session None w)
  /\ logout_route false w = (Ok (message_response 500 "Logout failed"), w)
  /\ (forall saved, users (snd (logout_route saved w)) = users w
                    /\ db_up (snd (logout_route saved w)) = db_up w)
  /\ auth_user_route (snd (logout_route true w))
     = (Ok (message_response 401 "Not authenticated"), snd (logout_route true w))
  /\ behind_isAuthenticated handler (snd (logout_route true w))
     = (Ok (message_response 401 "Unauthorized"), snd (logout_route true w))
  /\ (forall u, passport_session w = (Ok (Some u), w) ->
        auth_user_route (snd (logout_route false w))
        = (Ok (mkResponse 200 (Json (user_fields u))), w)
        /\ behind_isAuthenticated handler (snd (logout_route false w))
           = handler u w).
Proof.
  split; [reflexivity|]. split; [reflexivity|].
  split; [intros saved; destruct saved; split; reflexivity|].
  split; [reflexivity|]. split; [reflexivity|].
  intros u Hu. change (snd (logout_route false w)) with w.
  unfold auth_user_route, behind_isAuthenticated, bind. rewrite Hu.
  split; reflexivity.
Qed.

End Flows.

Section AccountWrites.
Import Js Hex Data Async Storage LocalAuth Routes Accounts.

Variable scrypt : string -> string -> nat -> Buffer.
Variable entropy : nat -> byte.

Local Abbreviation salt_at := (LocalAuth.salt_at entropy).
Local Abbreviation login_route := (LocalAuth.login_route scrypt).
Local Abbreviation reset_password_route :=
  (LocalAuth.reset_password_route scrypt entropy).
Local Abbreviation fresh_hash pw w :=
  (record_of (scrypt pw (toString_hex (salt_at w)) 64) (salt_at w)).

(** What an accepted provisioning request went through. *)
Lemma admin_create_user_created
    (pick : nat -> nat) (uname mail rl lic : option string)
    (w w' : World) (r : Response) :
  admin_create_user pick uname mail rl lic w = (Ok r, w') ->
  status r = 201 ->
  exists (name e : string),
    uname = Some name /\ mail = Some e /\ e <> ""
    /\ db_up w = true
    /\ find_by_id name (users w) = None
    /\ email_taken (provisioned_user name e rl lic (generateSecurePassword pick))
                   (users w) = false
    /\ w' = with_users
              (replace_row
                 (provisioned_user name e rl lic (generateSecurePassword pick))
                 (users w)) w.
Proof.
  intros Hrun Hst.
  unfold admin_create_user, try_catch, bind, getUser, upsertUser in Hrun.
  destruct uname as [name|];
    [|cbv beta iota in Hrun; injection Hrun as <- <-; discriminate Hst].
  destruct mail as [e|];
    [|cbv beta iota in Hrun; injection Hrun as <- <-; discriminate Hst].
  cbv beta iota in Hrun.
  destruct (name =? "") eqn:En;
    [cbv beta iota in Hrun; injection Hrun as <- <-; discriminate Hst|].
  destruct (e =? "") eqn:Ee;
    [cbv beta iota in Hrun; injection Hrun as <- <-; discriminate Hst|].
  cbn [orb] in Hrun.
  destruct (db_up w) eqn:Hup;
    [|cbv beta iota in Hrun; injection Hrun as <- <-; discriminate Hst].
  destruct (find_by_id name (users w)) eqn:Hf;
    [cbv beta iota in Hrun; injection Hrun as <- <-; discriminate Hst|].
  cbv beta iota in Hrun. rewrite Hup in Hrun. cbn [negb] in Hrun.
  destruct (email_taken _ (users w)) eqn:Ht;
    [cbv beta iota in Hrun; injection Hrun as <- <-; discriminate Hst|].
  cbv beta iota in Hrun. injection Hrun as _ <-.
  exists name, e. apply String.eqb_neq in Ee. repeat split; assumption.
Qed.

Lemma email_free (u : User) (us : list User) :
  email_taken u us = false -> find_by_id (id u) us = None ->
  find_by_email (email u) us = None.
Proof.
  unfold email_taken. induction us as [|v us IH]; intros Ht Hf; [reflexivity|].
  cbn [existsb] in Ht. apply orb_false_iff in Ht as [Hv Ht].
  cbn [find_by_id find] in Hf. cbn [find_by_email find].
  destruct (id v =? id u); [discriminate|]. cbn [negb andb] in Hv.
  rewrite Hv. apply IH; assumption.
Qed.

(** X9. An account created by POST /api/admin/users cannot log in:
    its stored password is not a hash record, so for every non-empty
    password supplied with its email, the temporary password that was
    mailed included, the comparison throws, the verify callback
    reports the exception and the login ends in the error response,
    with no session opened. *)
Theorem provisioned_account_cannot_log_in
    (pick : nat -> nat) (uname mail rl lic : option string)
    (w w' : World) (r : Response) :
  admin_create_user pick uname mail rl lic w = (Ok r, w') ->
  status r = 201 ->
  exists (e : string),
    mail = Some e
    /\ generateSecurePassword pick <> ""
    /\ (forall pw, pw <> "" ->
        exists m,
          LocalAuth.verify scrypt e pw w' = (Ok (DoneError (TypeError m)), w')
          /\ login_route (Some e) (Some pw) w' = (Ok error_page, w'))
    /\ session w' = session w.
Proof.
  intros Hrun Hst.
  destruct (admin_create_user_created _ _ _ _ _ _ _ _ Hrun Hst)
    as (name & e & -> & -> & He & Hup & Hf & Ht & ->).
  set (u := provisioned_user name e rl lic (generateSecurePassword pick)) in *.
  set (w1 := with_users (replace_row u (users w)) w) in *.
  destruct (generateSecurePassword_shape pick) as [Hl Hc].
  assert (Hne : generateSecurePassword pick <> "").
  { intros E. rewrite E in Hl. discriminate Hl. }
  assert (Hfind : find_by_email e (users w1) = Some u).
  { cbn [users with_users w1]. apply find_by_email_replace_row.
    - apply (email_free u (users w) Ht Hf).
    - apply String.eqb_refl. }
  exists e. split; [reflexivity|]. split; [exact Hne|]. split; [|reflexivity].
  intros pw Hpw.
  destruct (verify_malformed_record scrypt w1 e pw (generateSecurePassword pick) u
              Hup Hfind eq_refl Hne Hc) as [m Hm].
  exists m. split; [exact Hm|].
  apply String.eqb_neq in He, Hpw.
  unfold LocalAuth.login_route, bind. cbv beta iota. rewrite He, Hpw.
  cbn [orb]. rewrite Hm. reflexivity.
Qed.

(** X10. POST /api/admin/users either creates or changes nothing: it
    always answers; with any status other than 201 the world is
    exactly as before; with 201 the users table is the old one with
    the new row added at its end, so no existing row is overwritten,
    and the new row's id is the requested username, its role the
    requested one or [user] when none was given. *)
Theorem admin_create_user_adds_or_leaves
    (pick : nat -> nat) (uname mail rl lic : option string) (w : World) :
  exists (r : Response) (w' : World),
    admin_create_user pick uname mail rl lic w = (Ok r, w')
    /\ (status r <> 201 -> w' = w)
    /\ (status r = 201 ->
        exists u, users w' = (users w ++ [u])%list
                  /\ uname = Some (id u)
                  /\ role u = or_default rl "user"
                  /\ session w' = session w /\ cursor w' = cursor w).
Proof.
  destruct (admin_create_user pick uname mail rl lic w) as [res w'] eqn:Hrun.
  assert (Hans : exists r, res = Ok r /\ (status r <> 201 -> w' = w)).
  { unfold admin_create_user, try_catch, bind, getUser, upsertUser in Hrun.
    destruct uname as [name|]; [|injection Hrun as <- <-; eauto].
    destruct mail as [e|]; [|injection Hrun as <- <-; eauto].
    cbv beta iota in Hrun.
    destruct ((name =? "") || (e =? "")); [injection Hrun as <- <-; eauto|].
    destruct (db_up w) eqn:Hup; [|injection Hrun as <- <-; eauto].
    destruct (find_by_id name (users w)); [injection Hrun as <- <-; eauto|].
    cbv beta iota in Hrun. rewrite Hup in Hrun. cbn [negb] in Hrun.
    destruct (email_taken _ (users w)); [injection Hrun as <- <-; eauto|].
    cbv beta iota in Hrun. injection Hrun as <- <-.
    eexists. split; [reflexivity|]. intros H. exfalso. apply H. reflexivity. }
  destruct Hans as (r & -> & Hleave).
  exists r, w'. split; [reflexivity|]. split; [exact Hleave|].
  intros Hst.
  destruct (admin_create_user_created _ _ _ _ _ _ _ _ Hrun Hst)
    as (name & e & -> & -> & He & Hup & Hf & Ht & ->).
  eexists. cbn [users session cursor with_users]. split.
  - apply replace_row_fresh. exact Hf.
  - repeat split.
Qed.

End AccountWrites.

Section Gates.
Import Js Hex Data Async Storage LocalAuth Routes Accounts.

(** X11. The [isAdmin] middleware always answers and changes nothing,
    and it lets a request through exactly when the request carries a
    user with a non-empty id, the database answers, and the row stored
    under that id now has the role [admin]: the role is read from the
    table at each request, not from the user object of the session. *)
Theorem isAdmin_admits_only_stored_admin
    (w w' : World) (req_user : option User) :
  (exists g, isAdmin req_user w = (Ok g, w))
  /\ (isAdmin req_user w = (Ok Next, w') <->
      w' = w
      /\ exists ru u,
           req_user = Some ru /\ id ru <> "" /\ db_up w = true
           /\ find_by_id (id ru) (users w) = Some u /\ role u = "admin").
Proof.
  unfold isAdmin, try_catch, bind, getUser.
  destruct req_user as [ru|].
  2:{ split; [eexists; reflexivity|]. split; [discriminate|].
      intros (_ & ru & u & H & _). discriminate H. }
  destruct (id ru =? "") eqn:Eid.
  { split; [eexists; reflexivity|]. split; [discriminate|].
    intros (_ & ru' & u & [= <-] & Hid & _). apply String.eqb_eq in Eid.
    contradiction. }
  destruct (db_up w) eqn:Hup.
  2:{ split; [eexists; reflexivity|]. split; [discriminate|].
      intros (_ & ru' & u & _ & _ & H & _). discriminate H. }
  destruct (find_by_id (id ru) (users w)) as [u|] eqn:Hf.
  2:{ split; [eexists; reflexivity|]. split; [discriminate|].
      intros (_ & ru' & u & [= <-] & _ & _ & H & _). congruence. }
  destruct (role u =? "admin") eqn:Er; cbn [negb].
  - split; [eexists; reflexivity|]. split.
    + intros [= <-]. split; [reflexivity|]. exists ru, u.
      apply String.eqb_neq in Eid. apply String.eqb_eq in Er.
      repeat split; assumption.
    + intros (-> & _). reflexivity.
  - split; [eexists; reflexivity|]. split; [discriminate|].
    intros (_ & ru' & u' & [= <-] & _ & _ & H & Hr).
    apply String.eqb_neq in Er. congruence.
Qed.

(** X12. The inline role checks, with the database up. The manager
    check [user?.role === "user"] refuses only a stored role that is
    exactly [user]: a user id without a row and any other role value
    are let through. The admin check [user?.role !== "admin"] lets
    through only a stored role that is exactly [admin] and refuses a
    user id without a row. *)
Theorem inline_role_checks
    (denied : string) (failed : JsError -> Response) (w : World) (ru : User) :
  db_up w = true ->
  (deny_role_user denied failed ru w = (Ok Next, w) <->
   (forall u, find_by_id (id ru) (users w) = Some u -> role u <> "user"))
  /\ (require_role_admin denied failed ru w = (Ok Next, w) <->
      (exists u, find_by_id (id ru) (users w) = Some u /\ role u = "admin"))
  /\ (find_by_id (id ru) (users w) = None ->
      deny_role_user denied failed ru w = (Ok Next, w)
      /\ require_role_admin denied failed ru w
         = (Ok (Reply (forbidden denied)), w)).
Proof.
  intros Hup.
  unfold deny_role_user, require_role_admin, try_catch, bind, getUser.
  rewrite Hup. destruct (find_by_id (id ru) (users w)) as [u|].
  - split; [|split; [|discriminate]].
    + destruct (role u =? "user") eqn:Eu.
      * apply String.eqb_eq in Eu. split; [discriminate|].
        intros H. exfalso. exact (H u eq_refl Eu).
      * apply String.eqb_neq in Eu. split; [|reflexivity].
        intros _ u' [= <-]. exact Eu.
    + destruct (role u =? "admin") eqn:Ea; cbn [negb].
      * apply String.eqb_eq in Ea. split; [|reflexivity].
        intros _. exists u. split; [reflexivity|exact Ea].
      * apply String.eqb_neq in Ea. split; [discriminate|].
        intros (u' & [= <-] & Hr). contradiction.
  - split; [split; [intros _ u H; discriminate H | reflexivity]|].
    split; [split; [discriminate | intros (u & H & _); discriminate H]|].
    intros _. split; reflexivity.
Qed.

Lemma find_by_id_filter_gone (i : string) (us : list User) :
  find_by_id i (filter (fun u => negb (id u =? i)) us) = None.
Proof.
  induction us as [|v us IH]; [reflexivity|]. cbn [filter].
  destruct (id v =? i) eqn:E; cbn [negb]; [exact IH|].
  cbn [find_by_id find]. rewrite E. exact IH.
Qed.

Lemma find_by_id_filter_other (i j : string) (us : list User) :
  i <> j ->
  find_by_id j (filter (fun u => negb (id u =? i)) us) = find_by_id j us.
Proof.
  intros Hne. induction us as [|v us IH]; [reflexivity|]. cbn [filter].
  destruct (id v =? i) eqn:E; cbn [negb find_by_id find].
  - apply String.eqb_eq in E. subst i. apply String.eqb_neq in Hne.
    rewrite Hne. exact IH.
  - destruct (id v =? j); [reflexivity|exact IH].
Qed.

Lemma filter_absent (i : string) (us : list User) :
  find_by_id i us = None -> filter (fun u => negb (id u =? i)) us = us.
Proof.
  induction us as [|v us IH]; intros H; [reflexivity|].
  cbn [find_by_id find] in H. cbn [filter].
  destruct (id v =? i); [discriminate|]. cbn [negb]. f_equal. exact (IH H).
Qed.

(** X13. DELETE /api/admin/users/:id. With the acting admin's own id
    it answers 400 and changes nothing, so an admin cannot remove
    their own account through it. With another id, and the database
    up, it answers 200, the rows of that id are gone and every other
    row is kept, the acting admin's among them; a session of the
    deleted user then resolves to no user and the session check
    answers 401. Deleting an id that has no row changes no row. *)
Theorem admin_delete_user_spec (w : World) (admin : User) (i : string) :
  (i = id admin ->
   admin_delete_user admin i w
   = (Ok (message_response 400 "Cannot delete your own account"), w))
  /\ (i <> id admin -> db_up w = true ->
      exists w',
        admin_delete_user admin i w
        = (Ok (message_response 200 "User deleted successfully"), w')
        /\ find_by_id i (users w') = None
        /\ (forall v, In v (users w') <-> In v (users w) /\ id v <> i)
        /\ find_by_id (id admin) (users w') = find_by_id (id admin) (users w)
        /\ auth_user_route (with_session (Some i) w')
           = (Ok (message_response 401 "Not authenticated"),
              with_session None w')
        /\ (find_by_id i (users w) = None -> users w' = users w)).
Proof.
  split.
  - intros ->. unfold admin_delete_user, try_catch.
    rewrite String.eqb_refl. reflexivity.
  - intros Hne Hup. apply String.eqb_neq in Hne.
    unfold admin_delete_user, try_catch, bind, deleteUser.
    rewrite Hne, Hup. cbn [negb]. eexists. split; [reflexivity|].
    cbn [users with_users].
    pose proof (find_by_id_filter_gone i (users w)) as Hgone.
    split; [exact Hgone|]. split.
    { intros v. rewrite filter_In. split.
      - intros [Hin Hb]. split; [exact Hin|].
        apply negb_true_iff, String.eqb_neq in Hb. exact Hb.
      - intros [Hin Hb]. split; [exact Hin|].
        apply negb_true_iff, String.eqb_neq. exact Hb. }
    split.
    { apply find_by_id_filter_other. apply String.eqb_neq. exact Hne. }
    split.
    { unfold auth_user_route, passport_session, bind, get_world.
      cbn [session with_session]. rewrite deserializeUser_total.
      cbn [db_up users with_session with_users]. rewrite Hup, Hgone.
      reflexivity. }
    apply filter_absent.
Qed.

End Gates.

Section AdminReset.
Import Js Hex Data Async Storage LocalAuth Routes Accounts.

Variable scrypt : string -> string -> nat -> Buffer.
Variable entropy : nat -> byte.

Local Abbreviation salt_at := (LocalAuth.salt_at entropy).
Local Abbreviation comparePasswords := (LocalAuth.comparePasswords scrypt).
Local Abbreviation login_route := (LocalAuth.login_route scrypt).
Local Abbreviation admin_reset_password :=
  (Accounts.admin_reset_password scrypt entropy).
Local Abbreviation fresh_hash pw w :=
  (record_of (scrypt pw (toString_hex (salt_at w)) 64) (salt_at w)).

Lemma admin_reset_password_found
    (pick : nat -> nat) (delivered : bool) (i : string) (w : World) (u : User) :
  db_up w = true ->
  find_by_id i (users w) = Some u
  \/ (find_by_id i (users w) = None /\ find_by_email i (users w) = Some u) ->
  admin_reset_password pick delivered i w
  = (Ok (if delivered then password_sent u
         else message_response 500 "E-Mail-Versand fehlgeschlagen"),
     with_users
       (update_row (id u)
          (set_password (fresh_hash (generateSecurePassword pick) w)) (users w))
       (with_cursor (cursor w + 16) w)).
Proof.
  intros Hup Hfound.
  unfold Accounts.admin_reset_password, try_catch, bind, getUser, getUserByEmail.
  rewrite Hup.
  destruct Hfound as [Hid|[Hid Hem]]; rewrite Hid; cbv beta iota.
  - unfold ret at 1. rewrite hashPassword_eq.
    unfold updateUser_password. cbn [db_up with_cursor]. rewrite Hup.
    destruct delivered; reflexivity.
  - rewrite Hup, Hem, hashPassword_eq.
    unfold updateUser_password. cbn [db_up with_cursor]. rewrite Hup.
    destruct delivered; reflexivity.
Qed.

(** X14. POST /api/admin/users/:id/reset-password, with the database
    up. The account is looked up by id and, when no row has that id,
    by email; when neither finds one the answer is 404 and nothing
    changes. Otherwise the generated password is hashed and the hash
    stored before the mail is sent: with the mail delivered the answer
    is 200, with the mail failing it is 500, and the stored password
    has been replaced in both cases. The stored record verifies the
    generated password, and a login with the account's email and that
    password is answered 200. *)
Theorem admin_reset_password_spec
    (pick : nat -> nat) (delivered : bool) (i : string) (w : World) :
  db_up w = true ->
  (find_by_id i (users w) = None -> find_by_email i (users w) = None ->
   admin_reset_password pick delivered i w
   = (Ok (message_response 404 "Benutzer nicht gefunden"), w))
  /\ (forall u,
        find_by_id i (users w) = Some u
        \/ (find_by_id i (users w) = None /\ find_by_email i (users w) = Some u) ->
        exists (h : string) (w1 : World),
          h = fresh_hash (generateSecurePassword pick) w
          /\ admin_reset_password pick true i w = (Ok (password_sent u), w1)
          /\ admin_reset_password pick false i w
             = (Ok (message_response 500 "E-Mail-Versand fehlgeschlagen"), w1)
          /\ (forall v, In v (users w1) -> id v = id u -> password v = Some h)
          /\ comparePasswords (generateSecurePassword pick) h = Ok true
          /\ (email u <> "" -> find_by_email (email u) (users w) = Some u ->
              login_route (Some (email u)) (Some (generateSecurePassword pick)) w1
              = (Ok (mkResponse 200
                       (Json [("user", JUser (set_password h u));
                              ("message", JStr "Login successful")])),
                 with_session (Some (id u)) w1))).
Proof.
  intros Hup. split.
  - intros Hid Hem.
    unfold Accounts.admin_reset_password, try_catch, bind, getUser, getUserByEmail.
    rewrite Hup, Hid. cbv beta iota. rewrite Hup, Hem. reflexivity.
  - intros u Hfound. eexists _, _. split; [reflexivity|].
    split; [apply (admin_reset_password_found pick true i w u Hup Hfound)|].
    split; [apply (admin_reset_password_found pick false i w u Hup Hfound)|].
    cbn [users with_users with_cursor].
    split.
    { intros v Hin Hv. unfold update_row in Hin.
      apply in_map_iff in Hin as (x & E & _).
      destruct (id x =? id u) eqn:Ei; subst v; [reflexivity|].
      apply String.eqb_neq in Ei. contradiction. }
    split.
    { rewrite comparePasswords_record. unfold timingSafeEqual.
      rewrite Nat.eqb_refl, buffer_eqb_refl. reflexivity. }
    intros He Hu.
    destruct (generateSecurePassword_shape pick) as [Hl _].
    assert (Hne : generateSecurePassword pick <> "").
    { intros E. rewrite E in Hl. discriminate Hl. }
    apply (login_accepts scrypt _ (email u) (generateSecurePassword pick)
             (set_password (fresh_hash (generateSecurePassword pick) w) u)
             (scrypt (generateSecurePassword pick) (toString_hex (salt_at w)) 64)
             (salt_at w)); try assumption; try reflexivity.
    cbn [users with_users with_cursor].
    rewrite (find_by_email_update_row _ _ _ _ u Hu), String.eqb_refl.
    reflexivity.
Qed.

End AdminReset.

Section AllowLists.
Import Js Hex Data Async Storage LocalAuth Routes Accounts.

Variable updateUser : string -> list (string * JVal) -> M (option User).

Lemma pick_allowed_drop (allowed : list string)
    (pre post : list (string * JVal)) (k : string) (v : JVal) :
  existsb (String.eqb k) allowed = false ->
  pick_allowed allowed (pre ++ (k, v) :: post)%list
  = pick_allowed allowed (pre ++ post)%list.
Proof.
  intros H. unfold pick_allowed. rewrite !filter_app. cbn [filter fst].
  rewrite H. reflexivity.
Qed.

Lemma pick_allowed_none (allowed : list string) (body : list (string * JVal)) :
  (forall kv, In kv body -> existsb (String.eqb (fst kv)) allowed = false) ->
  pick_allowed allowed body = [].
Proof.
  intros H. unfold pick_allowed. induction body as [|kv body IH]; [reflexivity|].
  cbn [filter]. rewrite (H kv (or_introl eq_refl)). apply IH.
  intros kv' Hin. apply H. right. exact Hin.
Qed.

(** X15. PATCH /api/profile, for every storage update function. An
    entry of the body whose key is outside the allow-list has no
    effect at all on what the route does, wherever it stands in the
    body; [id], [username], [email], [password], [role] and
    [licenseType] are such keys, so a user cannot change them through
    the profile. A body without any allowed key is answered 400 and
    the storage is not called. *)
Theorem profile_update_allow_list (ru : User) (w : World) :
  (forall pre post k v,
     existsb (String.eqb k) profile_allowedFields = false ->
     profile_update updateUser ru (pre ++ (k, v) :: post)%list w
     = profile_update updateUser ru (pre ++ post)%list w)
  /\ (forall k,
        In k ["id"; "username"; "email"; "password"; "role"; "licenseType"] ->
        existsb (String.eqb k) profile_allowedFields = false)
  /\ (forall body,
        (forall kv, In kv body ->
                    existsb (String.eqb (fst kv)) profile_allowedFields = false) ->
        profile_update updateUser ru body w
        = (Ok (message_response 400 "No valid fields to update"), w)).
Proof.
  split; [|split].
  - intros pre post k v H. unfold profile_update.
    rewrite (pick_allowed_drop _ pre post k v H). reflexivity.
  - intros k Hk. cbn [In] in Hk.
    repeat (destruct Hk as [<-|Hk]; [reflexivity|]). contradiction.
  - intros body H. unfold profile_update, try_catch.
    rewrite (pick_allowed_none _ body H). reflexivity.
Qed.

(** X16. PATCH /api/admin/users/:id, for every storage update
    function. The route answers with the outcome of one storage
    update, called with the id of the path and with exactly the
    allowed entries of the body, in the body's order: 200 with the
    returned row, or 500 when the update throws. So an entry whose key
    is outside the allow-list has no effect, and [id], [username],
    [password] and [licenseType] are such keys: this route cannot set
    a password. A [role] or an [email] entry is allowed and reaches
    the storage update with the value the body gave. Unlike the
    profile route there is no check for an empty selection: a body
    without any allowed key still calls the storage update, with no
    column. *)
Theorem admin_update_user_allow_list (i : string) (w : World) :
  (forall body,
     admin_update_user updateUser i body w
     = match updateUser i (pick_allowed admin_allowedFields body) w with
       | (Ok (Some u), w') => (Ok (mkResponse 200 (Json (user_fields u))), w')
       | (Ok None, w') => (Ok (mkResponse 200 (Text "")), w')
       | (Throw _, w') => (Ok (message_response 500 "Failed to update user"), w')
       end)
  /\ (forall pre post k v,
        existsb (String.eqb k) admin_allowedFields = false ->
        admin_update_user updateUser i (pre ++ (k, v) :: post)%list w
        = admin_update_user updateUser i (pre ++ post)%list w)
  /\ (forall k,
        In k ["id"; "username"; "password"; "licenseType"] ->
        existsb (String.eqb k) admin_allowedFields = false)
  /\ (forall k v, In k ["role"; "email"] ->
        pick_allowed admin_allowedFields [(k, v)] = [(k, v)]
        /\ admin_update_user updateUser i [(k, v)] w
           = match updateUser i [(k, v)] w with
             | (Ok (Some u), w') =>
                 (Ok (mkResponse 200 (Json (user_fields u))), w')
             | (Ok None, w') => (Ok (mkResponse 200 (Text "")), w')
             | (Throw _, w') =>
                 (Ok (message_response 500 "Failed to update user"), w')
             end)
  /\ (forall body,
        (forall kv, In kv body ->
                    existsb (String.eqb (fst kv)) admin_allowedFields = false) ->
        admin_update_user updateUser i body w
        = match updateUser i [] w with
          | (Ok (Some u), w') => (Ok (mkResponse 200 (Json (user_fields u))), w')
          | (Ok None, w') => (Ok (mkResponse 200 (Text "")), w')
          | (Throw _, w') => (Ok (message_response 500 "Failed to update user"), w')
          end).
Proof.
  assert (Hrun : forall body,
             admin_update_user updateUser i body w
             = match updateUser i (pick_allowed admin_allowedFields body) w with
               | (Ok (Some u), w') =>
                   (Ok (mkResponse 200 (Json (user_fields u))), w')
               | (Ok None, w') => (Ok (mkResponse 200 (Text "")), w')
               | (Throw _, w') =>
                   (Ok (message_response 500 "Failed to update user"), w')
               end).
  { intros body. unfold admin_update_user, try_catch, bind.
    destruct (updateUser i (pick_allowed admin_allowedFields body) w)
      as [[[u|]|err] w']; reflexivity. }
  split; [exact Hrun|]. split; [|split; [|split]].
  - intros pre post k v H. rewrite !Hrun.
    rewrite (pick_allowed_drop _ pre post k v H). reflexivity.
  - intros k Hk. cbn [In] in Hk.
    repeat (destruct Hk as [<-|Hk]; [reflexivity|]). contradiction.
  - intros k v Hk.
    assert (E : pick_allowed admin_allowedFields [(k, v)] = [(k, v)]).
    { cbn [In] in Hk.
      repeat (destruct Hk as [<-|Hk]; [reflexivity|]). contradiction. }
    split; [exact E|]. rewrite Hrun, E. reflexivity.
  - intros body H. rewrite Hrun, (pick_allowed_none _ body H). reflexivity.
Qed.

End AllowLists.

(** ** The further properties at the sample instances *)

Lemma storage_outage_is_reported_witness :
  let w := Data.mkWorld [Sample.alice] false None 16 in
  LocalAuth.register_route Sample.kdf Sample.tape true Sample.draws
    "bob@example.com" "hunter2!" None None w
  = (Js.Ok (Data.message_response 500 "Registration failed"), w)
  /\ LocalAuth.verify Sample.kdf "alice@example.com" "correcthorse123" w
     = (Js.Ok (LocalAuth.DoneError Storage.unavailable), w).
Proof.
  cbv zeta.
  destruct (storage_outage_is_reported Sample.kdf Sample.tape true Sample.draws
              (Data.mkWorld [Sample.alice] false None 16)
              "bob@example.com" "hunter2!" "alice@example.com"
              "correcthorse123" "T" None None)
    as (H1 & _ & _ & H4);
    [reflexivity | discriminate | discriminate | discriminate | ].
  split; [exact H1 | exact H4].
Defined.

Lemma reset_routes_require_their_fields_witness :
  LocalAuth.reset_password_route Sample.kdf Sample.tape
    (Some "alice@example.com") (Some "newpass456") (Some "") Sample.world1
  = (Js.Ok (Data.message_response 400 "Alle Felder sind erforderlich"),
     Sample.world1)
  /\ LocalAuth.forgot_password_route Sample.draws None Sample.world1
     = (Js.Ok (Data.message_response 400 "E-Mail-Adresse ist erforderlich"),
        Sample.world1).
Proof.
  split.
  - apply (reset_routes_require_their_fields Sample.kdf Sample.tape Sample.draws
             Sample.world1 (Some "alice@example.com") (Some "newpass456")
             (Some "")).
    reflexivity.
  - apply (reset_routes_require_their_fields Sample.kdf Sample.tape Sample.draws
             Sample.world1 None None None).
    reflexivity.
Defined.


Lemma reset_then_login_witness :
  exists (u1 : Data.User) (w1 : Data.World),
    LocalAuth.reset_password_route Sample.kdf Sample.tape
      (Some "alice@example.com") (Some "newpass456") (Some "T") Sample.world1
    = (Js.Ok LocalAuth.reset_done, w1)
    /\ LocalAuth.login_route Sample.kdf
         (Some "alice@example.com") (Some "newpass456") w1
       = (Js.Ok (Data.mkResponse 200
                   (Data.Json [("user", Data.JUser u1);
                               ("message", Data.JStr "Login successful")])),
          Data.with_session (Some (Data.id Sample.alice)) w1).
Proof.
  destruct (reset_then_login Sample.kdf Sample.tape Sample.world1
              "alice@example.com" "newpass456" "T" Sample.alice)
    as (u1 & w1 & H1 & _ & _ & _ & H2);
    [reflexivity | discriminate | discriminate | discriminate | reflexivity | ].
  exists u1, w1. split; [exact H1 | exact H2].
Defined.

Lemma provisioned_account_cannot_log_in_witness :
  exists (r : Data.Response) (w' : Data.World),
    Routes.admin_create_user Sample.pick (Some "carol")
      (Some "carol@example.com") (Some "manager") None Sample.world1
    = (Js.Ok r, w')
    /\ LocalAuth.login_route Sample.kdf
         (Some "carol@example.com") (Some "dozKV6alwHS3") w'
       = (Js.Ok LocalAuth.error_page, w').
Proof.
  destruct (Routes.admin_create_user Sample.pick (Some "carol")
              (Some "carol@example.com") (Some "manager") None Sample.world1)
    as [res w'] eqn:Hrun.
  destruct res as [r|err]; [|vm_compute in Hrun; discriminate Hrun].
  assert (Hst : Data.status r = 201).
  { vm_compute in Hrun. injection Hrun as <- _. reflexivity. }
  destruct (provisioned_account_cannot_log_in Sample.kdf _ _ _ _ _ _ _ _ Hrun Hst)
    as (e & He & _ & Hlogin & _).
  injection He as <-.
  destruct (Hlogin "dozKV6alwHS3") as (m & _ & H); [discriminate|].
  exists r, w'. split; [reflexivity | exact H].
Defined.

Lemma admin_create_user_adds_or_leaves_witness :
  exists (r : Data.Response) (w' : Data.World),
    Routes.admin_create_user Sample.pick (Some "root")
      (Some "second@example.com") None None Sample.world1
    = (Js.Ok r, w')
    /\ Data.status r = 409 /\ w' = Sample.world1.
Proof.
  destruct (admin_create_user_adds_or_leaves Sample.pick (Some "root")
              (Some "second@example.com") None None Sample.world1)
    as (r & w' & Hrun & Hleave & _).
  assert (Hst : Data.status r = 409).
  { vm_compute in Hrun. injection Hrun as <- _. reflexivity. }
  exists r, w'. split; [exact Hrun|]. split; [exact Hst|].
  apply Hleave. rewrite Hst. discriminate.
Defined.

Lemma isAdmin_admits_only_stored_admin_witness :
  let demoted :=
    Data.mkUser "mallory" None "mallory@example.com" None None None "admin"
                None false true in
  exists g, Routes.isAdmin (Some demoted) Sample.world1 = (Js.Ok g, Sample.world1)
            /\ g <> LocalAuth.Next.
Proof.
  cbv zeta.
  destruct (isAdmin_admits_only_stored_admin Sample.world1 Sample.world1
              (Some (Data.mkUser "mallory" None "mallory@example.com" None None
                                 None "admin" None false true)))
    as ((g & Hg) & Hiff).
  exists g. split; [exact Hg|]. intros ->.
  destruct (proj1 Hiff Hg) as (_ & ru & u & Hru & _ & _ & Hf & Hr).
  injection Hru as <-. vm_compute in Hf. injection Hf as <-.
  discriminate Hr.
Defined.

Lemma inline_role_checks_witness :
  let ghost :=
    Data.mkUser "deleted" None "ghost@example.com" None None None "user"
                None false true in
  Routes.sftp_files_role_check ghost Sample.world1
  = (Js.Ok LocalAuth.Next, Sample.world1)
  /\ Routes.project_delete_role_check ghost Sample.world1
     = (Js.Ok (LocalAuth.Reply (Routes.forbidden "Insufficient permissions")),
        Sample.world1).
Proof.
  cbv zeta. split.
  - apply (inline_role_checks "SFTP access requires manager or admin role"
             (Routes.failure_response "Failed to list SFTP files")
             Sample.world1
             (Data.mkUser "deleted" None "ghost@example.com" None None None
                          "user" None false true) eq_refl).
    reflexivity.
  - apply (inline_role_checks "Insufficient permissions"
             (fun _ => Data.message_response 500 "Failed to delete project")
             Sample.world1
             (Data.mkUser "deleted" None "ghost@example.com" None None None
                          "user" None false true) eq_refl).
    reflexivity.
Defined.

Lemma admin_delete_user_spec_witness :
  Accounts.admin_delete_user Sample.root "root" Sample.world1
  = (Js.Ok (Data.message_response 400 "Cannot delete your own account"),
     Sample.world1)
  /\ exists w',
       Accounts.admin_delete_user Sample.root "mallory" Sample.world1
       = (Js.Ok (Data.message_response 200 "User deleted successfully"), w')
       /\ Storage.find_by_id "mallory" (Data.users w') = None
       /\ LocalAuth.auth_user_route (Data.with_session (Some "mallory") w')
          = (Js.Ok (Data.message_response 401 "Not authenticated"),
             Data.with_session None w').
Proof.
  split.
  - apply (admin_delete_user_spec Sample.world1 Sample.root "root"). reflexivity.
  - destruct (admin_delete_user_spec Sample.world1 Sample.root "mallory")
      as [_ H].
    destruct H as (w' & H1 & H2 & _ & _ & H5 & _);
      [discriminate | reflexivity | ].
    exists w'. repeat split; assumption.
Defined.

Lemma admin_reset_password_spec_witness :
  exists (h : string) (w1 : Data.World),
    Accounts.admin_reset_password Sample.kdf Sample.tape Sample.pick false
      "alice@example.com" Sample.world1
    = (Js.Ok (Data.message_response 500 "E-Mail-Versand fehlgeschlagen"), w1)
    /\ Storage.find_by_email "alice@example.com" (Data.users w1)
       = Some (Storage.set_password h Sample.alice)
    /\ LocalAuth.comparePasswords Sample.kdf "dozKV6alwHS3" h = Js.Ok true.
Proof.
  destruct (admin_reset_password_spec Sample.kdf Sample.tape Sample.pick false
              "alice@example.com" Sample.world1 eq_refl) as [_ H].
  destruct (H Sample.alice) as (h & w1 & Hh & _ & Hrun & _ & Hcmp & _).
  { right. split; reflexivity. }
  exists h, w1. split; [exact Hrun|]. split; [|exact Hcmp].
  vm_compute in Hrun. injection Hrun as <-. subst h. vm_compute. reflexivity.
Defined.

Lemma profile_update_allow_list_witness :
  Accounts.profile_update Accounts.read_only_update Sample.alice
    [("firstName", Data.JStr "Al"); ("role", Data.JStr "admin")] Sample.world1
  = Accounts.profile_update Accounts.read_only_update Sample.alice
      [("firstName", Data.JStr "Al")] Sample.world1
  /\ Accounts.profile_update Accounts.read_only_update Sample.alice
       [("role", Data.JStr "admin"); ("password", Data.JStr "x")] Sample.world1
     = (Js.Ok (Data.message_response 400 "No valid fields to update"),
        Sample.world1).
Proof.
  destruct (profile_update_allow_list Accounts.read_only_update Sample.alice
              Sample.world1) as (Hdrop & Hkeys & Hnone).
  split.
  - apply (Hdrop [("firstName", Data.JStr "Al")] [] "role" (Data.JStr "admin")).
    apply Hkeys. right; right; right; right; left. reflexivity.
  - apply Hnone. intros kv [<-|[<-|[]]]; reflexivity.
Defined.

Lemma admin_update_user_allow_list_witness :
  Accounts.admin_update_user Accounts.read_only_update "alice"
    [("password", Data.JStr "plain"); ("role", Data.JStr "admin")] Sample.world1
  = Accounts.admin_update_user Accounts.read_only_update "alice"
      [("role", Data.JStr "admin")] Sample.world1.
Proof.
  destruct (admin_update_user_allow_list Accounts.read_only_update "alice"
              Sample.world1) as (_ & Hdrop & Hkeys & _).
  apply (Hdrop [] [("role", Data.JStr "admin")] "password" (Data.JStr "plain")).
  apply Hkeys. right; right; left. reflexivity.
Defined.

Section RecordEdges.
Import Js Hex Data Async LocalAuth.

Variable scrypt : string -> string -> nat -> Buffer.

Lemma append_assoc (a b c : string) : ((a ++ b) ++ c = a ++ (b ++ c))%string.
Proof. induction a as [|x a IH]; cbn; [reflexivity|]. rewrite IH. reflexivity. Qed.

(** X17. [comparePasswords] reads only the first two pieces of the
    stored string: whatever follows a second delimiter is ignored, so
    a record with a further [.] and any text appended compares
    exactly as the record itself, and still verifies the password it
    was made from. *)
Theorem comparePasswords_reads_two_pieces
    (supplied : string) (key salt : Buffer) (rest : string) :
  LocalAuth.comparePasswords scrypt supplied (record_of key salt ++ "." ++ rest)
  = LocalAuth.comparePasswords scrypt supplied (record_of key salt)
  /\ (key = scrypt supplied (toString_hex salt) 64 ->
      LocalAuth.comparePasswords scrypt supplied
        (record_of key salt ++ "." ++ rest) = Ok true).
Proof.
  assert (E : LocalAuth.comparePasswords scrypt supplied
                (record_of key salt ++ "." ++ rest)
              = timingSafeEqual key (scrypt supplied (toString_hex salt) 64)).
  { unfold LocalAuth.comparePasswords, record_of.
    rewrite append_assoc. cbn [append].
    rewrite split_app_sep by apply toString_hex_no_dot.
    rewrite split_app_sep by apply toString_hex_no_dot.
    cbn [nth nth_error scryptAsync rbind]. rewrite from_hex_toString_hex.
    reflexivity. }
  split.
  - rewrite E, comparePasswords_record. reflexivity.
  - intros ->. rewrite E. unfold timingSafeEqual.
    rewrite Nat.eqb_refl, buffer_eqb_refl. reflexivity.
Qed.

End RecordEdges.

Lemma comparePasswords_reads_two_pieces_witness :
  LocalAuth.comparePasswords Sample.kdf "correcthorse123"
    (Sample.hash_of "correcthorse123" Sample.empty_world ++ ".v2.anything")
  = Js.Ok true.
Proof.
  apply (comparePasswords_reads_two_pieces Sample.kdf "correcthorse123"
           (Sample.kdf "correcthorse123"
              (Hex.toString_hex (LocalAuth.salt_at Sample.tape Sample.empty_world)) 64)
           (LocalAuth.salt_at Sample.tape Sample.empty_world) "v2.anything").
  reflexivity.
Defined.

Lemma logout_by_session_store_witness :
  let w := Data.with_session (Some "local_1_alice") Sample.world1 in
  LocalAuth.logout_route false w
  = (Js.Ok (Data.message_response 500 "Logout failed"), w)
  /\ LocalAuth.auth_user_route (snd (LocalAuth.logout_route false w))
     = (Js.Ok (Data.mkResponse 200 (Data.Json (Data.user_fields Sample.alice))), w)
  /\ LocalAuth.auth_user_route (snd (LocalAuth.logout_route true w))
     = (Js.Ok (Data.message_response 401 "Not authenticated"),
        Data.with_session None w).
Proof.
  cbv zeta.
  destruct (logout_by_session_store
              (Data.with_session (Some "local_1_alice") Sample.world1)
              (fun _ => Async.ret LocalAuth.error_page))
    as (_ & H500 & _ & H401 & _ & Hkept).
  split; [exact H500|]. split.
  - apply (Hkept Sample.alice). reflexivity.
  - exact H401.
Defined.
